(** * WalletService: the in-memory ledger engine of [src/wallet/wallet.service.ts]

    The service keeps three JavaScript [Map]s (wallets, transaction
    histories, cached idempotent responses) and mutates them in place.
    The embedding below threads them through a small monad in which a
    [throw] keeps whatever was written before it, as in JavaScript.

    Conventions of the embedding
    - a TypeScript [number] is an IEEE-754 binary64 value ([float], the
      primitive floats of the kernel) and [+ - * / <] are the rounding
      operations on them, with their infinities and their NaN;
    - [Map<string, V>] is [gmap string V]; an object held in a map is
      identified with its key (the service never stores one object under
      two keys), so [wallet.balance += x] is an update at that key;
    - [uuid()] and [new Date()] read from two oracles carried by the world,
      each with a cursor that advances at every call;
    - [Logger.log] and [console.log] are left out. *)

From Stdlib Require Import ZArith PrimFloat FloatOps SpecFloat.
From stdpp Require Import gmap strings list fin_maps.

#[local] Set Warnings "-inexact-float".

Local Open Scope string_scope.

(** ** Data model: [interfaces/wallet.interface.ts], [interfaces/transaction.interface.ts] *)

Inductive Currency := USD | NGN | GBP.

#[global] Instance Currency_eq_dec : EqDecision Currency.
Proof. solve_decision. Defined.

Record Wallet := mkWallet {
  id : string;
  currency : Currency;
  balance : float
}.

Inductive TransactionAction := FUND | TRANSFER_OUT | TRANSFER_IN.

#[global] Instance TransactionAction_eq_dec : EqDecision TransactionAction.
Proof. solve_decision. Defined.

Record Transaction := mkTransaction {
  tx_id : string;
  walletId : string;
  action : TransactionAction;
  amount : float;
  timestamp : Z;
  counterpartyWalletId : option string;
  transferGroupId : option string
}.

Record WalletDetailsResponse := mkDetails {
  details_id : string;
  details_currency : Currency;
  details_balance : float;
  details_transactionHistory : list Transaction
}.

(** The two result shapes built by [fundWallet] and [transferFunds].  Both
    methods return, and the store caches, a value typed [any]; one sum type
    holds both shapes. *)
Inductive Payload :=
| FundResult (message : string) (wid : string) (cur : Currency) (bal : float)
| TransferResult (message : string) (sender receiver : Wallet).

Record IdempotentResponse := mkIdempotentResponse { body : Payload }.

(** ** DTOs: [dto/create-wallet.dto.ts], [dto/fund-wallet.dto.ts], [dto/transfer-funds.dto.ts] *)

Record CreateWalletDto := mkCreateWalletDto { dto_currency : option Currency }.
Record FundWalletDto := mkFundWalletDto { fund_amount : float }.
Record TransferFundsDto := mkTransferFundsDto {
  receiverWalletId : string;
  transfer_amount : float
}.

(** ** Exceptions *)

Inductive ExceptionClass :=
| NotFoundException
| BadRequestException
| ConflictException
| TypeError.

#[global] Instance ExceptionClass_eq_dec : EqDecision ExceptionClass.
Proof. solve_decision. Defined.

Record Exception := mkException {
  exn_class : ExceptionClass;
  exn_message : string
}.

(** ** The world and the effect monad *)

Record World := mkWorld {
  wallets : gmap string Wallet;
  transactionHistory : gmap string (list Transaction);
  idempotentStore : gmap string IdempotentResponse;
  uuid_oracle : nat -> string;
  uuid_cursor : nat;
  date_oracle : nat -> Z;
  date_cursor : nat
}.

Definition with_wallets (m : gmap string Wallet) (w : World) : World :=
  mkWorld m (transactionHistory w) (idempotentStore w)
          (uuid_oracle w) (uuid_cursor w) (date_oracle w) (date_cursor w).

Definition with_transactionHistory (m : gmap string (list Transaction)) (w : World) : World :=
  mkWorld (wallets w) m (idempotentStore w)
          (uuid_oracle w) (uuid_cursor w) (date_oracle w) (date_cursor w).

Definition with_idempotentStore (m : gmap string IdempotentResponse) (w : World) : World :=
  mkWorld (wallets w) (transactionHistory w) m
          (uuid_oracle w) (uuid_cursor w) (date_oracle w) (date_cursor w).

Inductive Completion (A : Type) :=
| Normal (a : A)
| Throw (e : Exception).
Arguments Normal {A} a.
Arguments Throw {A} e.

Definition Eff (A : Type) : Type := World -> Completion A * World.

Definition ret {A} (a : A) : Eff A := fun w => (Normal a, w).

Definition bind {A B} (m : Eff A) (k : A -> Eff B) : Eff B :=
  fun w =>
    match m w with
    | (Normal a, w') => k a w'
    | (Throw e, w') => (Throw e, w')
    end.

Definition throw {A} (c : ExceptionClass) (msg : string) : Eff A :=
  fun w => (Throw (mkException c msg), w).

Declare Scope eff_scope.
Delimit Scope eff_scope with eff.
Notation "x <- m ;; k" := (bind m (fun x => k))
  (at level 100, m at next level, right associativity) : eff_scope.
Notation "m ;;; k" := (bind m (fun _ => k))
  (at level 100, right associativity) : eff_scope.
Local Open Scope eff_scope.

(** [uuid()] *)
Definition uuid : Eff string :=
  fun w =>
    (Normal (uuid_oracle w (uuid_cursor w)),
     mkWorld (wallets w) (transactionHistory w) (idempotentStore w)
             (uuid_oracle w) (S (uuid_cursor w)) (date_oracle w) (date_cursor w)).

(** [new Date()] *)
Definition new_Date : Eff Z :=
  fun w =>
    (Normal (date_oracle w (date_cursor w)),
     mkWorld (wallets w) (transactionHistory w) (idempotentStore w)
             (uuid_oracle w) (uuid_cursor w) (date_oracle w) (S (date_cursor w))).

(** [this.wallets.get(k)] *)
Definition wallets_get (k : string) : Eff (option Wallet) :=
  fun w => (Normal (wallets w !! k), w).

(** [this.wallets.set(k, v)] *)
Definition wallets_set (k : string) (v : Wallet) : Eff unit :=
  fun w => (Normal tt, with_wallets (<[k := v]> (wallets w)) w).

(** [this.transactionHistory.set(k, [])] *)
Definition transactionHistory_set (k : string) (h : list Transaction) : Eff unit :=
  fun w => (Normal tt, with_transactionHistory (<[k := h]> (transactionHistory w)) w).

(** [this.transactionHistory.get(k).push(tx)]: calling [push] on [undefined]
    is a [TypeError]. *)
Definition transactionHistory_push (k : string) (tx : Transaction) : Eff unit :=
  fun w =>
    match transactionHistory w !! k with
    | Some h => (Normal tt, with_transactionHistory (<[k := (h ++ [tx])%list]> (transactionHistory w)) w)
    | None => (Throw (mkException TypeError "Cannot read properties of undefined (reading 'push')"), w)
    end.

(** [obj.balance = v] on the wallet object stored under [ref]; the updated
    view of the object is returned for the code that goes on reading it. *)
Definition assign_balance (ref : string) (obj : Wallet) (v : float) : Eff Wallet :=
  let obj' := mkWallet (id obj) (currency obj) v in
  fun w => (Normal obj', with_wallets (<[ref := obj']> (wallets w)) w).

(** JavaScript truthiness of a [string | undefined]: [undefined] and the
    empty string are falsy. *)
Definition truthy (k : option string) : option string :=
  match k with
  | Some s => if String.eqb s EmptyString then None else Some s
  | None => None
  end.

Definition hundred : float := 100%float.

(** The double-quote character that the [NotFoundException] messages put
    around a wallet identifier. *)
Definition dquote : string := String (Ascii.ascii_of_nat 34) EmptyString.

(** ** The service methods *)

Module WalletService.

(** [checkIdempotency]: the cached body when the key is truthy and in the
    store, [undefined] otherwise. *)
Definition checkIdempotency (idempotencyKey : option string) : Eff (option Payload) :=
  fun w =>
    match truthy idempotencyKey with
    | Some k =>
        match idempotentStore w !! k with
        | Some r => (Normal (Some (body r)), w)
        | None => (Normal None, w)
        end
    | None => (Normal None, w)
    end.

(** [storeIdempotencyResult] *)
Definition storeIdempotencyResult (idempotencyKey : option string) (result : Payload) : Eff unit :=
  fun w =>
    match truthy idempotencyKey with
    | Some k =>
        (Normal tt,
         with_idempotentStore (<[k := mkIdempotentResponse result]> (idempotentStore w)) w)
    | None => (Normal tt, w)
    end.

(** [createWallet]; [createWalletDto.currency || Currency.USD]: every
    member of the enumeration is a non-empty string, hence truthy. *)
Definition createWallet (createWalletDto : CreateWalletDto) : Eff Wallet :=
  newId <- uuid ;;
  let newWallet :=
    mkWallet newId
             (match dto_currency createWalletDto with Some c => c | None => USD end)
             0%float in
  wallets_set (id newWallet) newWallet ;;;
  transactionHistory_set (id newWallet) [] ;;;
  ret newWallet.

(** [fundWallet].  A cached result is an object, so [if (cachedResult)]
    is taken exactly when [checkIdempotency] returned one. *)
Definition fundWallet (walletId : string) (fundWalletDto : FundWalletDto)
    (idempotencyKey : option string) : Eff Payload :=
  cachedResult <- checkIdempotency idempotencyKey ;;
  match cachedResult with
  | Some p => ret p
  | None =>
      let amount := fund_amount fundWalletDto in
      wallet <- wallets_get walletId ;;
      match wallet with
      | None => throw NotFoundException ("Wallet with ID " +:+ dquote +:+ walletId +:+ dquote +:+ " not found.")
      | Some wallet =>
          let amountInCents := (amount * hundred)%float in
          wallet <- assign_balance walletId wallet (balance wallet + amountInCents)%float ;;
          txId <- uuid ;;
          now <- new_Date ;;
          let transaction := mkTransaction txId walletId FUND amount now None None in
          transactionHistory_push walletId transaction ;;;
          let result :=
            FundResult "Transaction successful" (id wallet) (currency wallet)
                       (balance wallet / hundred)%float in
          storeIdempotencyResult idempotencyKey result ;;;
          ret result
      end
  end.

(** [transferFunds] *)
Definition transferFunds (senderWalletId : string) (transferFundsDto : TransferFundsDto)
    (idempotencyKey : option string) : Eff Payload :=
  cachedResult <- checkIdempotency idempotencyKey ;;
  match cachedResult with
  | Some p => ret p
  | None =>
      let receiverWalletId := receiverWalletId transferFundsDto in
      let amount := transfer_amount transferFundsDto in
      if String.eqb senderWalletId receiverWalletId then
        throw ConflictException "Cannot transfer funds to the same wallet."
      else
        senderWallet <- wallets_get senderWalletId ;;
        receiverWallet <- wallets_get receiverWalletId ;;
        match senderWallet with
        | None => throw NotFoundException "Sender wallet not found."
        | Some senderWallet =>
        match receiverWallet with
        | None => throw NotFoundException "Receiver wallet not found."
        | Some receiverWallet =>
            if negb (bool_decide (currency senderWallet = currency receiverWallet)) then
              throw BadRequestException
                    "Transfer between different currencies is not supported."
            else
              let senderBalance := (balance senderWallet / hundred)%float in
              if (senderBalance <? amount)%float then
                throw BadRequestException "Insufficient balance in sender wallet."
              else
                let amountInCents := (amount * hundred)%float in
                senderWallet <- assign_balance senderWalletId senderWallet
                                  (balance senderWallet - amountInCents)%float ;;
                receiverWallet <- assign_balance receiverWalletId receiverWallet
                                    (balance receiverWallet + amountInCents)%float ;;
                transferGroupId <- uuid ;;
                senderTxId <- uuid ;;
                senderNow <- new_Date ;;
                let senderTx :=
                  mkTransaction senderTxId senderWalletId TRANSFER_OUT amount senderNow
                                (Some receiverWalletId) (Some transferGroupId) in
                transactionHistory_push senderWalletId senderTx ;;;
                receiverTxId <- uuid ;;
                receiverNow <- new_Date ;;
                let receiverTx :=
                  mkTransaction receiverTxId receiverWalletId TRANSFER_IN amount receiverNow
                                (Some senderWalletId) (Some transferGroupId) in
                transactionHistory_push receiverWalletId receiverTx ;;;
                let result :=
                  TransferResult "Transaction successful"
                    (mkWallet (id senderWallet) (currency senderWallet)
                              (balance senderWallet / hundred)%float)
                    (mkWallet (id receiverWallet) (currency receiverWallet)
                              (balance receiverWallet / hundred)%float) in
                storeIdempotencyResult idempotencyKey result ;;;
                ret result
        end
        end
  end.

(** [getWalletDetails]; [this.transactionHistory.get(walletId) || []]:
    an array, even an empty one, is truthy. *)
Definition getWalletDetails (walletId : string) : Eff WalletDetailsResponse :=
  wallet <- wallets_get walletId ;;
  match wallet with
  | None => throw NotFoundException ("Wallet with ID " +:+ dquote +:+ walletId +:+ dquote +:+ " not found.")
  | Some wallet =>
      fun w =>
        let history := default [] (transactionHistory w !! walletId) in
        (Normal (mkDetails (id wallet) (currency wallet) (balance wallet / hundred)%float history), w)
  end.

End WalletService.

Import WalletService.

(** ** Requests reaching the service, and the states they lead to

    The controller hands the service a body that went through the global
    [ValidationPipe]: [@IsNumber({})] (neither NaN nor an infinity) and
    [@IsPositive] on both [amount] fields.  ([@IsUUID] on
    [receiverWalletId] is not needed by any result below and is left out,
    which only enlarges the set of reachable worlds.) *)

Inductive Request :=
| CreateWallet (dto : CreateWalletDto)
| GetWalletDetails (walletId : string)
| FundWallet (walletId : string) (dto : FundWalletDto) (idempotencyKey : option string)
| TransferFunds (senderId : string) (dto : TransferFundsDto) (idempotencyKey : option string).

Definition positive_number (a : float) : bool := ((0 <? a) && (a <? infinity))%float.

Definition validated (r : Request) : bool :=
  match r with
  | CreateWallet _ | GetWalletDetails _ => true
  | FundWallet _ dto _ => positive_number (fund_amount dto)
  | TransferFunds _ dto _ => positive_number (transfer_amount dto)
  end.

(** The world a request leaves behind, whether it returned or threw. *)
Definition handle (r : Request) (w : World) : World :=
  match r with
  | CreateWallet dto => snd (createWallet dto w)
  | GetWalletDetails k => snd (getWalletDetails k w)
  | FundWallet k dto key => snd (fundWallet k dto key w)
  | TransferFunds k dto key => snd (transferFunds k dto key w)
  end.

(** A freshly constructed service: three empty maps. *)
Definition initial (uuids : nat -> string) (dates : nat -> Z) : World :=
  mkWorld ∅ ∅ ∅ uuids 0 dates 0.

Inductive reachable : World -> Prop :=
| reachable_initial uuids dates : reachable (initial uuids dates)
| reachable_handle r w : reachable w -> validated r = true -> reachable (handle r w).

Definition run (rs : list Request) (w : World) : World :=
  fold_left (fun acc r => handle r acc) rs w.

(** [x] is a whole number (of minor units): a zero, or a finite value
    whose mantissa has no bit below the units. *)
Definition is_integer (x : float) : bool :=
  match Prim2SF x with
  | S754_zero _ => true
  | S754_finite _ m e => ((0 <=? e) || (Zpos m mod 2 ^ (- e) =? 0))%Z
  | S754_infinity _ | S754_nan => false
  end.

(** The idempotency gate of [fundWallet] and [transferFunds] lets the call
    through. *)
Definition gate_misses (idempotencyKey : option string) (w : World) : Prop :=
  fst (checkIdempotency idempotencyKey w) = Normal None.


(** ** State invariants *)

Record well_formed (w : World) : Prop := {
  wf_history : forall k, is_Some (wallets w !! k) -> is_Some (transactionHistory w !! k);
  wf_store : idempotentStore w !! EmptyString = None
}.

(** ** The unit conversions in binary64

    The two conversions of the service on their own, to show on small
    inputs where binary64 leaves the decimal result. *)

Module Binary64.

Definition amountInCents (amount : float) : float := (amount * 100)%float.
Definition toMajor (balance : float) : float := (balance / 100)%float.

End Binary64.

(** ** Sample runs used to exercise the results below

    Wallet identifiers come out as ["a"], ["b"], ... in creation order. *)

Module Demo.

Definition uuids (n : nat) : string := String (Ascii.ascii_of_nat (97 + n)) EmptyString.
Definition dates (n : nat) : Z := Z.of_nat n.

Definition fresh : World := initial uuids dates.

Definition usd : CreateWalletDto := mkCreateWalletDto (Some USD).
Definition ngn : CreateWalletDto := mkCreateWalletDto (Some NGN).

(** Wallets ["a"] and ["b"] in USD, ["a"] funded with 1000. *)
Definition funded : World :=
  run [CreateWallet usd; CreateWallet usd;
       FundWallet "a" (mkFundWalletDto 1000) None] fresh.

(** Wallet ["a"] in USD funded with 1000, wallet ["b"] in NGN. *)
Definition mixed : World :=
  run [CreateWallet usd; CreateWallet ngn;
       FundWallet "a" (mkFundWalletDto 1000) None] fresh.

(** [funded] after a transfer of 100 from ["a"] to ["b"] under the key ["k"]. *)
Definition transferred : World :=
  handle (TransferFunds "a" (mkTransferFundsDto "b" 100) (Some "k")) funded.

(** What that transfer returned: 900 left in ["a"], 100 in ["b"]. *)
Definition transfer_payload : Payload :=
  TransferResult "Transaction successful"
    (mkWallet "a" USD 900) (mkWallet "b" USD 100).

(** A single empty USD wallet ["a"]. *)
Definition one_wallet : World := run [CreateWallet usd] fresh.

(** Wallet ["a"] funded with 0.01: it holds one minor unit. *)
Definition one_cent : World :=
  run [CreateWallet usd; FundWallet "a" (mkFundWalletDto 0.01) None] fresh.

(** Wallets ["a"] and ["b"] in USD, ["a"] funded with 0.06 and then 0.01:
    it holds seven minor units. *)
Definition seven_cents : list Request :=
  [CreateWallet usd; CreateWallet usd;
   FundWallet "a" (mkFundWalletDto 0.06) None;
   FundWallet "a" (mkFundWalletDto 0.01) None].


End Demo.

(** ** The records of a history

    What ties a record to the wallet whose history holds it. *)

Definition well_linked (k : string) (tx : Transaction) : Prop :=
  walletId tx = k /\
  match action tx with
  | FUND => counterpartyWalletId tx = None /\ transferGroupId tx = None
  | TRANSFER_OUT | TRANSFER_IN =>
      (exists c, counterpartyWalletId tx = Some c /\ c <> k) /\
      is_Some (transferGroupId tx)
  end.

Record ledger_sound (w : World) : Prop := {
  ls_id : forall k wal, wallets w !! k = Some wal -> id wal = k;
  ls_keys : forall k, is_Some (transactionHistory w !! k) -> is_Some (wallets w !! k);
  ls_records : forall k h, transactionHistory w !! k = Some h -> Forall (well_linked k) h
}.

(** The requests that go to [getWalletDetails]. *)
Definition is_read (r : Request) : bool :=
  match r with
  | GetWalletDetails _ => true
  | _ => false
  end.

(** The requests other than [createWallet]. *)
Definition on_existing (r : Request) : bool :=
  match r with
  | CreateWallet _ => false
  | _ => true
  end.

(** ** Unfolding the effect monad *)

Ltac unfold_eff :=
  unfold fundWallet, transferFunds, createWallet, getWalletDetails,
    checkIdempotency, storeIdempotencyResult, bind, ret, throw, uuid, new_Date,
    wallets_get, wallets_set, transactionHistory_set, transactionHistory_push,
    assign_balance, with_wallets, with_transactionHistory, with_idempotentStore in *.

Ltac eff_cases := unfold_eff; repeat (case_match; simpl in *; simplify_eq).

(** * Results *)

(** ** The idempotency gate *)

Lemma truthy_Some key k : truthy key = Some k -> key = Some k /\ k <> EmptyString.
Proof.
  destruct key as [s|]; simpl; [| discriminate].
  destruct (String.eqb_spec s EmptyString); [discriminate |].
  intros [= <-]. auto.
Qed.

Lemma truthy_nonempty k : k <> EmptyString -> truthy (Some k) = Some k.
Proof.
  intros Hk. simpl. destruct (String.eqb_spec k EmptyString); [contradiction | reflexivity].
Qed.

Lemma checkIdempotency_pure key w : snd (checkIdempotency key w) = w.
Proof. unfold checkIdempotency. repeat case_match; reflexivity. Qed.

Lemma checkIdempotency_never_throws key w e : fst (checkIdempotency key w) <> Throw e.
Proof. unfold checkIdempotency. repeat case_match; discriminate. Qed.

Lemma checkIdempotency_hit k r w :
  k <> EmptyString ->
  idempotentStore w !! k = Some r ->
  checkIdempotency (Some k) w = (Normal (Some (body r)), w).
Proof.
  intros Hk Hr. unfold checkIdempotency. rewrite (truthy_nonempty _ Hk), Hr. reflexivity.
Qed.

Lemma gate_misses_run key w :
  gate_misses key w -> checkIdempotency key w = (Normal None, w).
Proof.
  unfold gate_misses. intros H.
  rewrite (surjective_pairing (checkIdempotency key w)), H, checkIdempotency_pure.
  reflexivity.
Qed.

(** ** Invariants of the reachable worlds *)

Section MapFacts.

Context {A B : Type}.
Implicit Types (W : gmap string A) (H : gmap string B).

Lemma covered_insert_both W H a x y :
  (forall k, is_Some (W !! k) -> is_Some (H !! k)) ->
  forall k, is_Some (<[a := x]> W !! k) -> is_Some (<[a := y]> H !! k).
Proof.
  intros Hc k. destruct (decide (a = k)) as [->|Hne].
  - rewrite !lookup_insert_eq. eauto.
  - rewrite !lookup_insert_ne by done. apply Hc.
Qed.

End MapFacts.

Lemma store_insert_nonempty (S : gmap string IdempotentResponse) key k r :
  truthy key = Some k ->
  S !! EmptyString = None -> <[k := r]> S !! EmptyString = None.
Proof.
  intros Hk HS. apply truthy_Some in Hk as [_ Hk].
  rewrite lookup_insert_ne by done. exact HS.
Qed.

Lemma well_formed_initial uuids dates : well_formed (initial uuids dates).
Proof. split; simpl; intros *; rewrite ?lookup_empty; [intros [? [=]] | done]. Qed.

Lemma well_formed_createWallet dto w :
  well_formed w -> well_formed (snd (createWallet dto w)).
Proof.
  intros [Hh Hs]. eff_cases;
    (split; simpl; [apply covered_insert_both, Hh | exact Hs]).
Qed.

Lemma getWalletDetails_pure k w : snd (getWalletDetails k w) = w.
Proof. eff_cases; reflexivity. Qed.

(** ** What each method does on each of its paths *)

Lemma storeIdempotencyResult_wallets key r w :
  wallets (snd (storeIdempotencyResult key r w)) = wallets w.
Proof. eff_cases; reflexivity. Qed.

Lemma storeIdempotencyResult_history key r w :
  transactionHistory (snd (storeIdempotencyResult key r w)) = transactionHistory w.
Proof. eff_cases; reflexivity. Qed.

Lemma storeIdempotencyResult_store key r w :
  idempotentStore (snd (storeIdempotencyResult key r w)) =
  match truthy key with
  | Some k => <[k := mkIdempotentResponse r]> (idempotentStore w)
  | None => idempotentStore w
  end.
Proof. eff_cases; reflexivity. Qed.

Lemma fundWallet_hit k dto key w p :
  fst (checkIdempotency key w) = Normal (Some p) ->
  fundWallet k dto key w = (Normal p, w).
Proof.
  intros H. unfold fundWallet, bind.
  rewrite (surjective_pairing (checkIdempotency key w)), H, checkIdempotency_pure.
  reflexivity.
Qed.

Lemma fundWallet_absent k dto key w :
  gate_misses key w ->
  wallets w !! k = None ->
  fundWallet k dto key w =
  (Throw (mkException NotFoundException
            ("Wallet with ID " +:+ dquote +:+ k +:+ dquote +:+ " not found.")), w).
Proof.
  intros Hg Hw. unfold fundWallet, bind. rewrite (gate_misses_run _ _ Hg).
  unfold wallets_get. rewrite Hw. reflexivity.
Qed.

Lemma fundWallet_ok k dto key w wal h :
  gate_misses key w ->
  wallets w !! k = Some wal ->
  transactionHistory w !! k = Some h ->
  let wal' := mkWallet (id wal) (currency wal) (balance wal + fund_amount dto * hundred) in
  let tx := mkTransaction (uuid_oracle w (uuid_cursor w)) k FUND (fund_amount dto)
                          (date_oracle w (date_cursor w)) None None in
  let result := FundResult "Transaction successful" (id wal) (currency wal)
                           (balance wal' / hundred) in
  fundWallet k dto key w =
  (Normal result,
   snd (storeIdempotencyResult key result
          (mkWorld (<[k := wal']> (wallets w))
                   (<[k := (h ++ [tx])%list]> (transactionHistory w))
                   (idempotentStore w)
                   (uuid_oracle w) (S (uuid_cursor w))
                   (date_oracle w) (S (date_cursor w))))).
Proof.
  intros Hg Hw Hh. unfold fundWallet, bind. rewrite (gate_misses_run _ _ Hg).
  unfold wallets_get. rewrite Hw.
  unfold assign_balance, uuid, new_Date, transactionHistory_push, with_wallets. simpl.
  rewrite Hh. unfold storeIdempotencyResult, with_transactionHistory, ret. simpl.
  destruct (truthy key); reflexivity.
Qed.

(** The path that only a world with a wallet but no history array for it
    can take: [push] is called on [undefined] after the balance was written. *)
Lemma fundWallet_unlogged k dto key w wal :
  gate_misses key w ->
  wallets w !! k = Some wal ->
  transactionHistory w !! k = None ->
  exists msg, fst (fundWallet k dto key w) = Throw (mkException TypeError msg).
Proof.
  intros Hg Hw Hh. unfold fundWallet, bind. rewrite (gate_misses_run _ _ Hg).
  unfold wallets_get. rewrite Hw.
  unfold assign_balance, uuid, new_Date, transactionHistory_push. simpl.
  rewrite Hh. simpl. eauto.
Qed.

(** On a world where every wallet has a history, [fundWallet] either leaves
    the world as it was or runs its success path. *)
Lemma fundWallet_outcomes k dto key w :
  (forall k, is_Some (wallets w !! k) -> is_Some (transactionHistory w !! k)) ->
  snd (fundWallet k dto key w) = w \/
  exists wal h,
    gate_misses key w /\ wallets w !! k = Some wal /\ transactionHistory w !! k = Some h.
Proof.
  intros Hh.
  destruct (fst (checkIdempotency key w)) as [[p|]|e] eqn:Hg.
  - left. rewrite (fundWallet_hit _ _ _ _ _ Hg). reflexivity.
  - destruct (wallets w !! k) as [wal|] eqn:Hw.
    + destruct (Hh k) as [h Hk]; [rewrite Hw; eauto |]. right. eauto.
    + left. rewrite fundWallet_absent by done. reflexivity.
  - destruct (checkIdempotency_never_throws _ _ _ Hg).
Qed.

Section TransferPaths.

Variables (s : string) (dto : TransferFundsDto) (key : option string) (w : World).

Let r := receiverWalletId dto.
Let a := transfer_amount dto.

Lemma transferFunds_hit p :
  fst (checkIdempotency key w) = Normal (Some p) ->
  transferFunds s dto key w = (Normal p, w).
Proof.
  intros H. unfold transferFunds, bind.
  rewrite (surjective_pairing (checkIdempotency key w)), H, checkIdempotency_pure.
  reflexivity.
Qed.

Lemma transferFunds_self :
  gate_misses key w ->
  s = r ->
  transferFunds s dto key w =
  (Throw (mkException ConflictException "Cannot transfer funds to the same wallet."), w).
Proof.
  intros Hg Hs. unfold transferFunds, bind. rewrite (gate_misses_run _ _ Hg).
  subst r. rewrite <- Hs, String.eqb_refl. reflexivity.
Qed.

Hypothesis Hgate : gate_misses key w.
Hypothesis Hdistinct : s <> r.

Lemma transferFunds_sender_absent :
  wallets w !! s = None ->
  transferFunds s dto key w =
  (Throw (mkException NotFoundException "Sender wallet not found."), w).
Proof.
  intros Hs. unfold transferFunds, bind. rewrite (gate_misses_run _ _ Hgate).
  apply String.eqb_neq in Hdistinct. subst r. rewrite Hdistinct.
  unfold wallets_get. rewrite Hs. reflexivity.
Qed.

Lemma transferFunds_receiver_absent sw :
  wallets w !! s = Some sw ->
  wallets w !! r = None ->
  transferFunds s dto key w =
  (Throw (mkException NotFoundException "Receiver wallet not found."), w).
Proof.
  intros Hs Hr. unfold transferFunds, bind. rewrite (gate_misses_run _ _ Hgate).
  apply String.eqb_neq in Hdistinct. subst r. rewrite Hdistinct.
  unfold wallets_get. rewrite Hs, Hr. reflexivity.
Qed.

Variables sw rw : Wallet.
Hypothesis Hsender : wallets w !! s = Some sw.
Hypothesis Hreceiver : wallets w !! r = Some rw.

Lemma transferFunds_currency_mismatch :
  currency sw <> currency rw ->
  transferFunds s dto key w =
  (Throw (mkException BadRequestException
            "Transfer between different currencies is not supported."), w).
Proof.
  intros Hc. unfold transferFunds, bind. rewrite (gate_misses_run _ _ Hgate).
  apply String.eqb_neq in Hdistinct. subst r. rewrite Hdistinct.
  unfold wallets_get. rewrite Hsender, Hreceiver.
  rewrite bool_decide_eq_false_2 by done. reflexivity.
Qed.

Hypothesis Hcurrency : currency sw = currency rw.

Lemma transferFunds_insufficient :
  (balance sw / hundred <? a)%float = true ->
  transferFunds s dto key w =
  (Throw (mkException BadRequestException "Insufficient balance in sender wallet."), w).
Proof.
  intros Hlt. unfold transferFunds, bind. rewrite (gate_misses_run _ _ Hgate).
  apply String.eqb_neq in Hdistinct. subst r. rewrite Hdistinct.
  unfold wallets_get. rewrite Hsender, Hreceiver.
  rewrite bool_decide_eq_true_2 by done. simpl.
  subst a. rewrite Hlt. reflexivity.
Qed.

Lemma transferFunds_ok hs hr :
  (balance sw / hundred <? a)%float = false ->
  transactionHistory w !! s = Some hs ->
  transactionHistory w !! r = Some hr ->
  let sw' := mkWallet (id sw) (currency sw) (balance sw - a * hundred) in
  let rw' := mkWallet (id rw) (currency rw) (balance rw + a * hundred) in
  let group := uuid_oracle w (uuid_cursor w) in
  let senderTx :=
    mkTransaction (uuid_oracle w (S (uuid_cursor w))) s TRANSFER_OUT a
                  (date_oracle w (date_cursor w)) (Some r) (Some group) in
  let receiverTx :=
    mkTransaction (uuid_oracle w (S (S (uuid_cursor w)))) r TRANSFER_IN a
                  (date_oracle w (S (date_cursor w))) (Some s) (Some group) in
  let result :=
    TransferResult "Transaction successful"
      (mkWallet (id sw) (currency sw) (balance sw' / hundred))
      (mkWallet (id rw) (currency rw) (balance rw' / hundred)) in
  transferFunds s dto key w =
  (Normal result,
   snd (storeIdempotencyResult key result
          (mkWorld (<[r := rw']> (<[s := sw']> (wallets w)))
                   (<[r := (hr ++ [receiverTx])%list]>
                      (<[s := (hs ++ [senderTx])%list]> (transactionHistory w)))
                   (idempotentStore w)
                   (uuid_oracle w) (S (S (S (uuid_cursor w))))
                   (date_oracle w) (S (S (date_cursor w)))))).
Proof.
  intros Hge Hhs Hhr. unfold transferFunds, bind. rewrite (gate_misses_run _ _ Hgate).
  pose proof Hdistinct as Hne. apply String.eqb_neq in Hne. subst r. rewrite Hne.
  unfold wallets_get. rewrite Hsender, Hreceiver.
  rewrite bool_decide_eq_true_2 by done. simpl.
  subst a. rewrite Hge.
  unfold assign_balance, uuid, new_Date, transactionHistory_push, with_wallets,
    with_transactionHistory. simpl.
  rewrite Hhs. simpl. rewrite lookup_insert_ne by done. rewrite Hhr. simpl.
  unfold storeIdempotencyResult, ret. simpl.
  destruct (truthy key); reflexivity.
Qed.

(** The two paths that only a world with a wallet but no history array for
    it can take: [push] is called on [undefined] after the balances were
    written. *)
Lemma transferFunds_sender_unlogged :
  (balance sw / hundred <? a)%float = false ->
  transactionHistory w !! s = None ->
  exists msg, fst (transferFunds s dto key w) = Throw (mkException TypeError msg).
Proof.
  intros Hge Hhs. unfold transferFunds, bind. rewrite (gate_misses_run _ _ Hgate).
  apply String.eqb_neq in Hdistinct. subst r. rewrite Hdistinct.
  unfold wallets_get. rewrite Hsender, Hreceiver.
  rewrite bool_decide_eq_true_2 by done. simpl.
  subst a. rewrite Hge.
  unfold assign_balance, uuid, new_Date, transactionHistory_push. simpl.
  rewrite Hhs. simpl. eauto.
Qed.

Lemma transferFunds_receiver_unlogged hs :
  (balance sw / hundred <? a)%float = false ->
  transactionHistory w !! s = Some hs ->
  transactionHistory w !! r = None ->
  exists msg, fst (transferFunds s dto key w) = Throw (mkException TypeError msg).
Proof.
  intros Hge Hhs Hhr. unfold transferFunds, bind. rewrite (gate_misses_run _ _ Hgate).
  pose proof Hdistinct as Hne. apply String.eqb_neq in Hne. subst r. rewrite Hne.
  unfold wallets_get. rewrite Hsender, Hreceiver.
  rewrite bool_decide_eq_true_2 by done. simpl.
  subst a. rewrite Hge.
  unfold assign_balance, uuid, new_Date, transactionHistory_push. simpl.
  rewrite Hhs. simpl. rewrite lookup_insert_ne by done. rewrite Hhr. simpl. eauto.
Qed.

End TransferPaths.

(** On a world where every wallet has a history, [transferFunds] either
    leaves the world as it was or runs its success path. *)
Lemma transferFunds_outcomes s dto key w :
  (forall k, is_Some (wallets w !! k) -> is_Some (transactionHistory w !! k)) ->
  snd (transferFunds s dto key w) = w \/
  exists sw rw hs hr,
    gate_misses key w /\ s <> receiverWalletId dto /\
    wallets w !! s = Some sw /\ wallets w !! receiverWalletId dto = Some rw /\
    currency sw = currency rw /\
    (balance sw / hundred <? transfer_amount dto)%float = false /\
    transactionHistory w !! s = Some hs /\
    transactionHistory w !! receiverWalletId dto = Some hr.
Proof.
  intros Hh.
  destruct (fst (checkIdempotency key w)) as [[p|]|e] eqn:Hg;
    [left; by rewrite (transferFunds_hit _ _ _ _ _ Hg) | |
     destruct (checkIdempotency_never_throws _ _ _ Hg)].
  destruct (decide (s = receiverWalletId dto)) as [Heq|Hne];
    [left; by rewrite transferFunds_self |].
  destruct (wallets w !! s) as [sw|] eqn:Hs;
    [| left; by rewrite transferFunds_sender_absent].
  destruct (wallets w !! receiverWalletId dto) as [rw|] eqn:Hr;
    [| left; by rewrite (transferFunds_receiver_absent _ _ _ _ Hg Hne sw)].
  destruct (decide (currency sw = currency rw)) as [Hc|Hc];
    [| left; by rewrite (transferFunds_currency_mismatch _ _ _ _ Hg Hne sw rw)].
  destruct (balance sw / hundred <? transfer_amount dto)%float eqn:Hge;
    [left; by rewrite (transferFunds_insufficient _ _ _ _ Hg Hne sw rw) |].
  destruct (Hh s) as [hs Hhs]; [rewrite Hs; eauto |].
  destruct (Hh (receiverWalletId dto)) as [hr Hhr]; [rewrite Hr; eauto |].
  right. exists sw, rw, hs, hr. auto 10.
Qed.

(** ** Every reachable world is well formed *)

Lemma well_formed_store key result w :
  well_formed w -> well_formed (snd (storeIdempotencyResult key result w)).
Proof.
  intros [Hh Hs]. split.
  - rewrite storeIdempotencyResult_wallets, storeIdempotencyResult_history. exact Hh.
  - rewrite storeIdempotencyResult_store.
    destruct (truthy key) eqn:E; [eapply store_insert_nonempty; eassumption | exact Hs].
Qed.

Lemma well_formed_fundWallet k dto key w :
  well_formed w -> well_formed (snd (fundWallet k dto key w)).
Proof.
  intros Hwf.
  destruct (fundWallet_outcomes k dto key w (wf_history _ Hwf))
    as [-> | (wal & h & Hg & Hw & Hh)]; [exact Hwf |].
  rewrite (fundWallet_ok _ _ _ _ _ _ Hg Hw Hh). simpl.
  apply well_formed_store. destruct Hwf as [Hc Hs]. split; simpl.
  - apply covered_insert_both, Hc.
  - exact Hs.
Qed.

Lemma well_formed_transferFunds s dto key w :
  well_formed w -> well_formed (snd (transferFunds s dto key w)).
Proof.
  intros Hwf.
  destruct (transferFunds_outcomes s dto key w (wf_history _ Hwf))
    as [-> | (sw & rw & hs & hr & Hg & Hne & Hs & Hr & Hc & Hge & Hhs & Hhr)];
    [exact Hwf |].
  rewrite (transferFunds_ok _ _ _ _ Hg Hne _ _ Hs Hr Hc _ _ Hge Hhs Hhr). simpl.
  apply well_formed_store. destruct Hwf as [Hcov Hst]. split; simpl.
  - apply covered_insert_both, covered_insert_both, Hcov.
  - exact Hst.
Qed.

Lemma well_formed_handle r w : well_formed w -> well_formed (handle r w).
Proof.
  destruct r as [dto | k | k dto key | s dto key]; simpl; intros Hwf.
  - by apply well_formed_createWallet.
  - by rewrite getWalletDetails_pure.
  - by apply well_formed_fundWallet.
  - by apply well_formed_transferFunds.
Qed.

Lemma reachable_well_formed w : reachable w -> well_formed w.
Proof.
  induction 1 as [uuids dates | r w _ IH Hv].
  - apply well_formed_initial.
  - by apply well_formed_handle.
Qed.

Lemma reachable_run rs w :
  reachable w -> forallb validated rs = true -> reachable (run rs w).
Proof.
  revert w. induction rs as [| r rs IH]; simpl; intros w Hw Hv; [exact Hw |].
  apply andb_prop in Hv as [Hr Hrs].
  apply IH; [by constructor | exact Hrs].
Qed.

(** ** Errors and the world *)





(** ** Transfers *)

(** C1: wallet ["a"] holds seven minor units (funded with 0.06 and 0.01)
    and 0.07 is transferred to the empty wallet ["b"] of the same currency.
    Every precondition of the claim holds, the sufficiency test included,
    and the call returns; but [0.07 * 100] is more than 7 in binary64, the
    sender is left below zero, and the balance reported for it is not its
    prior balance in major units minus [amount], which is zero. *)
Theorem transferFunds_leaves_rounding_residue :
  reachable (run Demo.seven_cents Demo.fresh) /\
  gate_misses None (run Demo.seven_cents Demo.fresh) /\
  wallets (run Demo.seven_cents Demo.fresh) !! "a" = Some (mkWallet "a" USD 7) /\
  wallets (run Demo.seven_cents Demo.fresh) !! "b" = Some (mkWallet "b" USD 0) /\
  (7 / hundred <? 0.07)%float = false /\
  (7 / hundred - 0.07 =? 0)%float = true /\
  exists reported received w' sw',
    transferFunds "a" (mkTransferFundsDto "b" 0.07) None (run Demo.seven_cents Demo.fresh) =
      (Normal (TransferResult "Transaction successful"
                 (mkWallet "a" USD reported) (mkWallet "b" USD received)), w') /\
    (reported =? 7 / hundred - 0.07)%float = false /\
    (reported <? 0)%float = true /\
    wallets w' !! "a" = Some sw' /\
    (balance sw' <? 0)%float = true.
Proof.
  split; [apply reachable_run; [apply reachable_initial | reflexivity] |].
  do 5 (split; [reflexivity |]).
  eexists _, _, _, _. split; [vm_compute; reflexivity |].
  repeat split; vm_compute; reflexivity.
Qed.

(** C7: with no cache hit, a transfer whose receiver is the sender throws
    the [ConflictException], whether or not a wallet with that identifier
    exists, and the world is as it was. *)
Theorem self_transfer_conflict w s dto key :
  gate_misses key w ->
  receiverWalletId dto = s ->
  transferFunds s dto key w =
  (Throw (mkException ConflictException "Cannot transfer funds to the same wallet."), w).
Proof. intros Hg Hs. by apply transferFunds_self. Qed.

Lemma self_transfer_conflict_witness :
  wallets Demo.fresh !! "ghost" = None /\
  transferFunds "ghost" (mkTransferFundsDto "ghost" 5) (Some "k") Demo.fresh =
  (Throw (mkException ConflictException "Cannot transfer funds to the same wallet."),
   Demo.fresh).
Proof.
  split; [reflexivity |].
  apply (self_transfer_conflict Demo.fresh "ghost" (mkTransferFundsDto "ghost" 5)
           (Some "k")); reflexivity.
Defined.

(** C6, as amended: a [transferFunds] call that passes the idempotency
    gate and returns normally appends exactly one [TRANSFER_OUT] record to
    the sender's history and one [TRANSFER_IN] record to the receiver's and
    touches no other history; both records carry the identifier drawn by
    the first [uuid()] of the call as transfer group, and each names the
    other wallet as counterparty. *)
Theorem transferFunds_records w s dto key p w' :
  gate_misses key w ->
  transferFunds s dto key w = (Normal p, w') ->
  exists hs hr out inc,
    transactionHistory w !! s = Some hs /\
    transactionHistory w !! receiverWalletId dto = Some hr /\
    transactionHistory w' !! s = Some (hs ++ [out])%list /\
    transactionHistory w' !! receiverWalletId dto = Some (hr ++ [inc])%list /\
    (forall k, k <> s -> k <> receiverWalletId dto ->
               transactionHistory w' !! k = transactionHistory w !! k) /\
    action out = TRANSFER_OUT /\ action inc = TRANSFER_IN /\
    walletId out = s /\ walletId inc = receiverWalletId dto /\
    transferGroupId out = Some (uuid_oracle w (uuid_cursor w)) /\
    transferGroupId inc = Some (uuid_oracle w (uuid_cursor w)) /\
    counterpartyWalletId out = Some (receiverWalletId dto) /\
    counterpartyWalletId inc = Some s /\
    amount out = transfer_amount dto /\ amount inc = transfer_amount dto.
Proof.
  intros Hg H.
  destruct (decide (s = receiverWalletId dto)) as [Heq|Hne];
    [rewrite transferFunds_self in H by done; discriminate |].
  destruct (wallets w !! s) as [sw|] eqn:Hs;
    [| rewrite transferFunds_sender_absent in H by done; discriminate].
  destruct (wallets w !! receiverWalletId dto) as [rw|] eqn:Hr;
    [| rewrite (transferFunds_receiver_absent _ _ _ _ Hg Hne sw) in H by done;
       discriminate].
  destruct (decide (currency sw = currency rw)) as [Hc|Hc];
    [| rewrite (transferFunds_currency_mismatch _ _ _ _ Hg Hne sw rw) in H by done;
       discriminate].
  destruct (balance sw / hundred <? transfer_amount dto)%float eqn:Hge;
    [rewrite (transferFunds_insufficient _ _ _ _ Hg Hne sw rw) in H by done;
     discriminate |].
  destruct (transactionHistory w !! s) as [hs|] eqn:Hhs; cycle 1.
  { destruct (transferFunds_sender_unlogged _ _ _ _ Hg Hne _ _ Hs Hr Hc Hge Hhs) as [msg E].
    rewrite H in E. discriminate. }
  destruct (transactionHistory w !! receiverWalletId dto) as [hr|] eqn:Hhr; cycle 1.
  { destruct (transferFunds_receiver_unlogged _ _ _ _ Hg Hne _ _ Hs Hr Hc _ Hge Hhs Hhr)
      as [msg E].
    rewrite H in E. discriminate. }
  rewrite (transferFunds_ok _ _ _ _ Hg Hne _ _ Hs Hr Hc _ _ Hge Hhs Hhr) in H.
  injection H as _ <-. rewrite storeIdempotencyResult_history. simpl.
  eexists hs, hr, _, _. split; [reflexivity |]. split; [reflexivity |].
  split; [by rewrite lookup_insert_ne, lookup_insert_eq |].
  split; [by rewrite lookup_insert_eq |].
  split; [intros k Hks Hkr; by rewrite !lookup_insert_ne |].
  simpl. auto 15.
Qed.

Lemma transferFunds_records_witness :
  exists hs hr out inc,
    transactionHistory Demo.funded !! "a" = Some hs /\
    transactionHistory Demo.funded !! "b" = Some hr /\
    transactionHistory Demo.transferred !! "a" = Some (hs ++ [out])%list /\
    transactionHistory Demo.transferred !! "b" = Some (hr ++ [inc])%list /\
    (forall k, k <> "a" -> k <> "b" ->
               transactionHistory Demo.transferred !! k = transactionHistory Demo.funded !! k) /\
    action out = TRANSFER_OUT /\ action inc = TRANSFER_IN /\
    walletId out = "a" /\ walletId inc = "b" /\
    transferGroupId out = Some "d" /\
    transferGroupId inc = Some "d" /\
    counterpartyWalletId out = Some "b" /\
    counterpartyWalletId inc = Some "a" /\
    amount out = 100%float /\ amount inc = 100%float.
Proof.
  apply (transferFunds_records Demo.funded "a" (mkTransferFundsDto "b" 100) (Some "k")
           Demo.transfer_payload Demo.transferred).
  - reflexivity.
  - vm_compute. reflexivity.
Defined.

(** C6, as stated, fails on a replay: the transfer that produced
    [Demo.transferred] under the key ["k"] is called again with the same
    arguments and key; the call returns normally and no record is appended
    to either history. *)
Lemma replayed_transfer_appends_nothing :
  exists p w',
    transferFunds "a" (mkTransferFundsDto "b" 100) (Some "k") Demo.transferred =
      (Normal p, w') /\
    transactionHistory w' !! "a" = transactionHistory Demo.transferred !! "a" /\
    transactionHistory w' !! "b" = transactionHistory Demo.transferred !! "b" /\
    length <$> transactionHistory w' !! "a" = Some 2%nat /\
    length <$> transactionHistory w' !! "b" = Some 1%nat.
Proof.
  eexists _, _. split; [vm_compute; reflexivity |].
  repeat split; vm_compute; reflexivity.
Qed.

(** ** Funding *)

(** C5: wallet ["a"] holds one minor unit (funded with 0.01) and is funded
    with 2.18 without a key.  The call returns, but the balance it reports
    is not the prior balance in major units plus [amount]: the sum is
    2.19, the reported balance a binary64 value above it. *)
Theorem fundWallet_reports_rounded_sum :
  reachable Demo.one_cent /\
  gate_misses None Demo.one_cent /\
  wallets Demo.one_cent !! "a" = Some (mkWallet "a" USD 1) /\
  (1 / hundred + 2.18 =? 2.19)%float = true /\
  exists reported w',
    fundWallet "a" (mkFundWalletDto 2.18) None Demo.one_cent =
      (Normal (FundResult "Transaction successful" "a" USD reported), w') /\
    (reported =? 1 / hundred + 2.18)%float = false /\
    (2.19 <? reported)%float = true.
Proof.
  split; [apply reachable_run; [apply reachable_initial | reflexivity] |].
  do 3 (split; [reflexivity |]).
  eexists _, _. split; [vm_compute; reflexivity |].
  split; vm_compute; reflexivity.
Qed.

(** C8: the amount 0.001 passes [@IsNumber] and [@IsPositive]; funding the
    empty wallet ["a"] with it stores a balance of a tenth of a minor unit. *)
Theorem fundWallet_stores_fractional_cents :
  validated (FundWallet "a" (mkFundWalletDto 0.001) None) = true /\
  exists wal,
    wallets (handle (FundWallet "a" (mkFundWalletDto 0.001) None) Demo.one_wallet) !! "a"
      = Some wal /\
    balance wal = 0.1%float /\
    is_integer (balance wal) = false.
Proof.
  split; [reflexivity |].
  eexists. split; [vm_compute; reflexivity |].
  split; reflexivity.
Qed.

(** [is_integer] on some whole and some fractional values. *)
Example is_integer_samples :
  is_integer 0 = true /\ is_integer 7 = true /\ is_integer 100000 = true /\
  is_integer 900719925474099328 = true /\ is_integer (-128) = true /\
  is_integer 0.5 = false /\ is_integer (0.07 * 100) = false /\
  is_integer infinity = false /\ is_integer nan = false.
Proof. repeat split. Qed.

(** In binary64 the product is off a whole number already for 0.07, and a
    wallet holding the 7 minor units of 0.06 and 0.01 passes the sufficiency
    test for 0.07 and is then debited more than it holds. *)
Example binary64_seven_cents :
  (Binary64.amountInCents 0.07 =? 7)%float = false.
Proof. reflexivity. Qed.

Example binary64_overdraw :
  (Binary64.amountInCents 0.06 + Binary64.amountInCents 0.01 =? 7)%float = true /\
  (Binary64.toMajor 7 <? 0.07)%float = false /\
  (7 - Binary64.amountInCents 0.07 <? 0)%float = true.
Proof. repeat split. Qed.

(** ** Balances below zero *)

(** C4: five validated requests from a freshly constructed service (two
    wallets created, ["a"] funded with 0.06 and with 0.01, then 0.07
    transferred from ["a"] to ["b"]) lead to a world in which wallet ["a"]
    has a balance below zero.  The sufficiency test compares 7 / 100 with
    0.07 and passes; the debit is [0.07 * 100], which is more than 7. *)
Theorem validated_requests_reach_negative_balance :
  forallb validated
    (Demo.seven_cents ++ [TransferFunds "a" (mkTransferFundsDto "b" 0.07) None])%list = true /\
  reachable
    (run (Demo.seven_cents ++ [TransferFunds "a" (mkTransferFundsDto "b" 0.07) None])%list
         Demo.fresh) /\
  exists wal,
    wallets
      (run (Demo.seven_cents ++ [TransferFunds "a" (mkTransferFundsDto "b" 0.07) None])%list
           Demo.fresh) !! "a" = Some wal /\
    (balance wal <? 0)%float = true.
Proof.
  split; [reflexivity |].
  split; [apply reachable_run; [apply reachable_initial | reflexivity] |].
  eexists. split; vm_compute; reflexivity.
Qed.

(** ** Errors abort before the first write *)




(** ** Idempotent replay *)

(** A call that returned normally under a non-empty key leaves its payload
    cached under that key, whether it ran or was itself a replay. *)
Lemma fundWallet_caches k dto token w p w1 :
  token <> EmptyString ->
  fundWallet k dto (Some token) w = (Normal p, w1) ->
  exists r, idempotentStore w1 !! token = Some r /\ body r = p.
Proof.
  intros Ht H. pose proof (truthy_nonempty _ Ht) as Hk. simpl in Hk.
  eff_cases; simpl; eauto; eexists; split; [apply lookup_insert_eq | reflexivity].
Qed.

Lemma transferFunds_caches s dto token w p w1 :
  token <> EmptyString ->
  transferFunds s dto (Some token) w = (Normal p, w1) ->
  exists r, idempotentStore w1 !! token = Some r /\ body r = p.
Proof.
  intros Ht H. pose proof (truthy_nonempty _ Ht) as Hk. simpl in Hk.
  eff_cases; simpl; eauto; eexists; split; [apply lookup_insert_eq | reflexivity].
Qed.

(** C2, as amended: after a [fundWallet] or [transferFunds] call that
    returned normally under a non-empty key, the same call with the same
    arguments and key returns the same payload and leaves the whole world
    (balances, histories, cached responses) as the first call left it. *)
Theorem replay_under_nonempty_key token :
  token <> EmptyString ->
  (forall k dto w p w1,
      fundWallet k dto (Some token) w = (Normal p, w1) ->
      fundWallet k dto (Some token) w1 = (Normal p, w1)) /\
  (forall s dto w p w1,
      transferFunds s dto (Some token) w = (Normal p, w1) ->
      transferFunds s dto (Some token) w1 = (Normal p, w1)).
Proof.
  intros Ht. split.
  - intros k dto w p w1 H.
    destruct (fundWallet_caches _ _ _ _ _ _ Ht H) as (r & Hr & <-).
    apply fundWallet_hit. by rewrite (checkIdempotency_hit _ _ _ Ht Hr).
  - intros s dto w p w1 H.
    destruct (transferFunds_caches _ _ _ _ _ _ Ht H) as (r & Hr & <-).
    apply transferFunds_hit. by rewrite (checkIdempotency_hit _ _ _ Ht Hr).
Qed.

Lemma replay_under_nonempty_key_witness :
  transferFunds "a" (mkTransferFundsDto "b" 100) (Some "k") Demo.transferred =
  (Normal Demo.transfer_payload, Demo.transferred).
Proof.
  apply (proj2 (replay_under_nonempty_key "k" ltac:(discriminate))
           "a" (mkTransferFundsDto "b" 100) Demo.funded).
  vm_compute. reflexivity.
Defined.

(** C2, as stated, fails for the empty key: [fundWallet] on the empty
    wallet ["a"] with amount 100 under the key [EmptyString] returns
    normally, and the same call again credits the wallet a second time and
    appends a second record. *)
Lemma replay_under_empty_key_runs_again :
  exists p1 w1 p2 w2,
    fundWallet "a" (mkFundWalletDto 100) (Some EmptyString) Demo.one_wallet
      = (Normal p1, w1) /\
    fundWallet "a" (mkFundWalletDto 100) (Some EmptyString) w1 = (Normal p2, w2) /\
    p1 = FundResult "Transaction successful" "a" USD 100 /\
    p2 = FundResult "Transaction successful" "a" USD 200 /\
    wallets w1 !! "a" = Some (mkWallet "a" USD 10000) /\
    wallets w2 !! "a" = Some (mkWallet "a" USD 20000) /\
    length <$> transactionHistory w1 !! "a" = Some 1%nat /\
    length <$> transactionHistory w2 !! "a" = Some 2%nat.
Proof.
  eexists _, _, _, _.
  split; [vm_compute; reflexivity |].
  split; [vm_compute; reflexivity |].
  repeat split; vm_compute; reflexivity.
Qed.

(** C10: on a reachable world, a key found in the store makes [fundWallet]
    and [transferFunds] return the cached body and leave the world alone,
    whatever the wallet identifiers and amounts of the call and whichever
    method cached the entry. *)
Theorem cached_key_short_circuits w token r :
  reachable w ->
  idempotentStore w !! token = Some r ->
  (forall k dto, fundWallet k dto (Some token) w = (Normal (body r), w)) /\
  (forall s dto, transferFunds s dto (Some token) w = (Normal (body r), w)).
Proof.
  intros Hreach Hr.
  assert (token <> EmptyString) as Ht.
  { intros ->. rewrite (wf_store _ (reachable_well_formed _ Hreach)) in Hr. discriminate. }
  split; intros.
  - apply fundWallet_hit. by rewrite (checkIdempotency_hit _ _ _ Ht Hr).
  - apply transferFunds_hit. by rewrite (checkIdempotency_hit _ _ _ Ht Hr).
Qed.

Lemma cached_key_short_circuits_witness :
  reachable Demo.transferred /\
  wallets Demo.transferred !! "ghost" = None /\
  fundWallet "ghost" (mkFundWalletDto 7) (Some "k") Demo.transferred =
    (Normal Demo.transfer_payload, Demo.transferred) /\
  transferFunds "a" (mkTransferFundsDto "a" 999999) (Some "k") Demo.transferred =
    (Normal Demo.transfer_payload, Demo.transferred).
Proof.
  assert (reachable Demo.transferred) as Hreach.
  { apply reachable_handle; [| reflexivity].
    apply reachable_run; [apply reachable_initial | reflexivity]. }
  split; [exact Hreach |]. split; [reflexivity |].
  destruct (cached_key_short_circuits Demo.transferred "k"
              (mkIdempotentResponse Demo.transfer_payload) Hreach) as [Hfund Htransfer].
  - vm_compute. reflexivity.
  - split; [apply Hfund | apply Htransfer].
Defined.

(** ** The two business-rule failures of a transfer *)

(** C9, as amended: with the gate passed and two distinct existing wallets,
    [transferFunds] throws a [BadRequestException] both when the currencies
    differ and when the sender's balance in major units is below [amount];
    the world is unchanged, and the two exceptions differ in their message
    only. *)
Theorem business_failures_differ_by_message w s dto key sw rw :
  gate_misses key w ->
  s <> receiverWalletId dto ->
  wallets w !! s = Some sw ->
  wallets w !! receiverWalletId dto = Some rw ->
  let mismatch :=
    mkException BadRequestException "Transfer between different currencies is not supported." in
  let insufficient :=
    mkException BadRequestException "Insufficient balance in sender wallet." in
  (currency sw <> currency rw -> transferFunds s dto key w = (Throw mismatch, w)) /\
  (currency sw = currency rw ->
   (balance sw / hundred <? transfer_amount dto)%float = true ->
   transferFunds s dto key w = (Throw insufficient, w)) /\
  exn_class mismatch = exn_class insufficient /\
  exn_message mismatch <> exn_message insufficient.
Proof.
  intros Hg Hne Hs Hr. simpl. split; [| split; [| split]].
  - intros Hc. by apply (transferFunds_currency_mismatch _ _ _ _ Hg Hne sw rw).
  - intros Hc Hlt. by apply (transferFunds_insufficient _ _ _ _ Hg Hne sw rw).
  - reflexivity.
  - discriminate.
Qed.

Lemma business_failures_differ_by_message_witness :
  transferFunds "a" (mkTransferFundsDto "b" 1) None Demo.mixed =
  (Throw (mkException BadRequestException
            "Transfer between different currencies is not supported."), Demo.mixed).
Proof.
  apply (business_failures_differ_by_message Demo.mixed "a" (mkTransferFundsDto "b" 1)
           None (mkWallet "a" USD 100000) (mkWallet "b" NGN 0));
    [reflexivity | discriminate | reflexivity | reflexivity | discriminate].
Defined.

(** C9, as stated, fails: the exception thrown for a currency mismatch
    ([Demo.mixed], USD wallet to NGN wallet) and the one thrown for an
    insufficient balance ([Demo.funded], from the empty wallet ["b"]) are of
    one and the same class. *)
Lemma business_failures_share_one_class :
  exists e1 e2,
    fst (transferFunds "a" (mkTransferFundsDto "b" 1) None Demo.mixed) = Throw e1 /\
    fst (transferFunds "b" (mkTransferFundsDto "a" 1) None Demo.funded) = Throw e2 /\
    exn_class e1 = BadRequestException /\
    exn_class e2 = BadRequestException /\
    exn_class e1 = exn_class e2.
Proof.
  eexists _, _. split; [vm_compute; reflexivity |]. split; [vm_compute; reflexivity |].
  repeat split.
Qed.

(** * Further properties of the service *)

(** ** What the success paths write, field by field *)

Section FundWrites.

Variables (k : string) (dto : FundWalletDto) (key : option string) (w : World).
Variables (wal : Wallet) (h : list Transaction).
Hypothesis Hgate : gate_misses key w.
Hypothesis Hwallet : wallets w !! k = Some wal.
Hypothesis Hhistory : transactionHistory w !! k = Some h.

Lemma fundWallet_ok_wallets :
  wallets (snd (fundWallet k dto key w)) =
  <[k := mkWallet (id wal) (currency wal) (balance wal + fund_amount dto * hundred)]>
    (wallets w).
Proof.
  rewrite (fundWallet_ok _ _ _ _ _ _ Hgate Hwallet Hhistory). simpl.
  by rewrite storeIdempotencyResult_wallets.
Qed.

Lemma fundWallet_ok_history :
  transactionHistory (snd (fundWallet k dto key w)) =
  <[k := (h ++ [mkTransaction (uuid_oracle w (uuid_cursor w)) k FUND (fund_amount dto)
                              (date_oracle w (date_cursor w)) None None])%list]>
    (transactionHistory w).
Proof.
  rewrite (fundWallet_ok _ _ _ _ _ _ Hgate Hwallet Hhistory). simpl.
  by rewrite storeIdempotencyResult_history.
Qed.

End FundWrites.

Section TransferWrites.

Variables (s : string) (dto : TransferFundsDto) (key : option string) (w : World).
Variables (sw rw : Wallet) (hs hr : list Transaction).
Hypothesis Hgate : gate_misses key w.
Hypothesis Hdistinct : s <> receiverWalletId dto.
Hypothesis Hsender : wallets w !! s = Some sw.
Hypothesis Hreceiver : wallets w !! receiverWalletId dto = Some rw.
Hypothesis Hcurrency : currency sw = currency rw.
Hypothesis Hsufficient : (balance sw / hundred <? transfer_amount dto)%float = false.
Hypothesis Hhs : transactionHistory w !! s = Some hs.
Hypothesis Hhr : transactionHistory w !! receiverWalletId dto = Some hr.

Lemma transferFunds_ok_wallets :
  wallets (snd (transferFunds s dto key w)) =
  <[receiverWalletId dto :=
      mkWallet (id rw) (currency rw) (balance rw + transfer_amount dto * hundred)]>
    (<[s := mkWallet (id sw) (currency sw) (balance sw - transfer_amount dto * hundred)]>
       (wallets w)).
Proof.
  rewrite (transferFunds_ok _ _ _ _ Hgate Hdistinct _ _ Hsender Hreceiver Hcurrency
             _ _ Hsufficient Hhs Hhr). simpl.
  by rewrite storeIdempotencyResult_wallets.
Qed.

Lemma transferFunds_ok_history :
  exists out inc,
    transactionHistory (snd (transferFunds s dto key w)) =
    <[receiverWalletId dto := (hr ++ [inc])%list]>
      (<[s := (hs ++ [out])%list]> (transactionHistory w)) /\
    out = mkTransaction (uuid_oracle w (S (uuid_cursor w))) s TRANSFER_OUT
            (transfer_amount dto) (date_oracle w (date_cursor w))
            (Some (receiverWalletId dto)) (Some (uuid_oracle w (uuid_cursor w))) /\
    inc = mkTransaction (uuid_oracle w (S (S (uuid_cursor w)))) (receiverWalletId dto)
            TRANSFER_IN (transfer_amount dto) (date_oracle w (S (date_cursor w)))
            (Some s) (Some (uuid_oracle w (uuid_cursor w))).
Proof.
  rewrite (transferFunds_ok _ _ _ _ Hgate Hdistinct _ _ Hsender Hreceiver Hcurrency
             _ _ Hsufficient Hhs Hhr). simpl.
  rewrite storeIdempotencyResult_history. simpl. eauto.
Qed.

End TransferWrites.

Lemma createWallet_run dto w :
  let u := uuid_oracle w (uuid_cursor w) in
  let nw := mkWallet u (match dto_currency dto with Some c => c | None => USD end) 0 in
  createWallet dto w =
  (Normal nw,
   mkWorld (<[u := nw]> (wallets w)) (<[u := []]> (transactionHistory w))
           (idempotentStore w) (uuid_oracle w) (S (uuid_cursor w))
           (date_oracle w) (date_cursor w)).
Proof. reflexivity. Qed.

(** ** Wallets, histories and records agree *)

Lemma ledger_sound_initial uuids dates : ledger_sound (initial uuids dates).
Proof.
  split; simpl; intros *; rewrite ?lookup_empty; first [done | by intros [? [=]]].
Qed.

(** Writing a wallet and its history under one key keeps the ledger sound
    when the wallet carries the key and the records name it. *)
Lemma ledger_sound_insert w w' k wal' h' :
  ledger_sound w ->
  wallets w' = <[k := wal']> (wallets w) ->
  transactionHistory w' = <[k := h']> (transactionHistory w) ->
  id wal' = k ->
  Forall (well_linked k) h' ->
  ledger_sound w'.
Proof.
  intros [Hid Hkeys Hrec] HW HH Hi Hl. split; rewrite ?HW, ?HH.
  - intros k0 wal. destruct (decide (k = k0)) as [<-|Hne].
    + rewrite lookup_insert_eq. by intros [= <-].
    + rewrite lookup_insert_ne by done. apply Hid.
  - apply covered_insert_both, Hkeys.
  - intros k0 h. destruct (decide (k = k0)) as [<-|Hne].
    + rewrite lookup_insert_eq. by intros [= <-].
    + rewrite lookup_insert_ne by done. apply Hrec.
Qed.

Lemma ledger_sound_createWallet dto w :
  ledger_sound w -> ledger_sound (snd (createWallet dto w)).
Proof.
  intros Hls. rewrite createWallet_run. simpl.
  eapply ledger_sound_insert; [exact Hls | reflexivity | reflexivity | reflexivity | constructor].
Qed.

Lemma ledger_sound_fundWallet k dto key w :
  well_formed w -> ledger_sound w -> ledger_sound (snd (fundWallet k dto key w)).
Proof.
  intros Hwf Hls.
  destruct (fundWallet_outcomes k dto key w (wf_history _ Hwf))
    as [-> | (wal & h & Hg & Hw & Hh)]; [exact Hls |].
  eapply ledger_sound_insert;
    [exact Hls | exact (fundWallet_ok_wallets _ dto _ _ _ _ Hg Hw Hh)
    | exact (fundWallet_ok_history _ dto _ _ _ _ Hg Hw Hh) | ..].
  - simpl. by apply (ls_id _ Hls).
  - apply Forall_app. split; [by apply (ls_records _ Hls) |].
    repeat constructor.
Qed.

Lemma ledger_sound_transferFunds s dto key w :
  well_formed w -> ledger_sound w -> ledger_sound (snd (transferFunds s dto key w)).
Proof.
  intros Hwf Hls.
  destruct (transferFunds_outcomes s dto key w (wf_history _ Hwf))
    as [-> | (sw & rw & hs & hr & Hg & Hne & Hs & Hr & Hc & Hge & Hhs & Hhr)];
    [exact Hls |].
  destruct (transferFunds_ok_history _ _ _ _ _ _ _ _ Hg Hne Hs Hr Hc Hge Hhs Hhr)
    as (out & inc & HH & -> & ->).
  pose proof (transferFunds_ok_wallets _ _ _ _ _ _ _ _ Hg Hne Hs Hr Hc Hge Hhs Hhr) as HW.
  eapply (ledger_sound_insert
            (with_transactionHistory (<[s := _]> (transactionHistory w))
               (with_wallets (<[s := _]> (wallets w)) w)));
    [| exact HW | exact HH | ..].
  - eapply ledger_sound_insert; [exact Hls | reflexivity | reflexivity | ..].
    + simpl. by apply (ls_id _ Hls).
    + apply Forall_app. split; [by apply (ls_records _ Hls) |].
      repeat constructor; simpl; eauto.
  - simpl. by apply (ls_id _ Hls).
  - apply Forall_app. split; [by apply (ls_records _ Hls) |].
    repeat constructor; simpl; eauto.
Qed.

Lemma reachable_ledger_sound w : reachable w -> ledger_sound w.
Proof.
  induction 1 as [uuids dates | r w Hreach IH Hv].
  - apply ledger_sound_initial.
  - pose proof (reachable_well_formed _ Hreach) as Hwf.
    destruct r as [dto | k | k dto key | s dto key]; simpl.
    + by apply ledger_sound_createWallet.
    + by rewrite getWalletDetails_pure.
    + by apply ledger_sound_fundWallet.
    + by apply ledger_sound_transferFunds.
Qed.

Lemma funded_reachable : reachable Demo.funded.
Proof. apply reachable_run; [apply reachable_initial | reflexivity]. Qed.

Lemma transferred_reachable : reachable Demo.transferred.
Proof. apply reachable_handle; [apply funded_reachable | reflexivity]. Qed.

(** ** Creating and reading wallets *)

(** X1: [createWallet] always returns; the wallet it returns carries the
    identifier just drawn from [uuid()], a zero balance and the requested
    currency (USD when none is given); it is stored under its identifier
    with an empty history, and no other wallet, no other history and no
    cached response is touched. *)
Theorem createWallet_stores_fresh_wallet dto w :
  exists nw w',
    createWallet dto w = (Normal nw, w') /\
    id nw = uuid_oracle w (uuid_cursor w) /\
    balance nw = 0%float /\
    currency nw = default USD (dto_currency dto) /\
    wallets w' !! id nw = Some nw /\
    transactionHistory w' !! id nw = Some [] /\
    idempotentStore w' = idempotentStore w /\
    (forall k, k <> id nw ->
               wallets w' !! k = wallets w !! k /\
               transactionHistory w' !! k = transactionHistory w !! k).
Proof.
  rewrite createWallet_run. eexists _, _. split; [reflexivity |]. simpl.
  split; [reflexivity |]. split; [reflexivity |].
  split; [by destruct (dto_currency dto) |].
  rewrite !lookup_insert_eq. repeat split; try reflexivity.
  all: by rewrite lookup_insert_ne.
Qed.

Lemma createWallet_stores_fresh_wallet_witness :
  exists nw,
    fst (createWallet Demo.ngn Demo.funded) = Normal nw /\
    id nw = "d" /\ currency nw = NGN /\ balance nw = 0%float /\
    wallets (snd (createWallet Demo.ngn Demo.funded)) !! "a" = wallets Demo.funded !! "a".
Proof.
  destruct (createWallet_stores_fresh_wallet Demo.ngn Demo.funded)
    as (nw & w' & Hrun & Hid & Hbal & Hcur & _ & _ & _ & Hframe).
  exists nw. rewrite Hrun. simpl. repeat split; try assumption.
  apply Hframe. rewrite Hid. discriminate.
Defined.

(** X2: [getWalletDetails] on the identifier of the wallet [createWallet]
    has just returned succeeds and reports that wallet: its identifier and
    currency, a zero balance and an empty transaction history. *)
Theorem createWallet_then_getWalletDetails dto w nw w' :
  createWallet dto w = (Normal nw, w') ->
  exists d,
    getWalletDetails (id nw) w' = (Normal d, w') /\
    details_id d = id nw /\
    details_currency d = currency nw /\
    details_balance d = 0%float /\
    details_transactionHistory d = [].
Proof.
  rewrite createWallet_run. intros [= <- <-]. simpl.
  unfold getWalletDetails, bind, wallets_get. simpl.
  rewrite !lookup_insert_eq. simpl. eexists. split; [reflexivity |]. simpl.
  split; [reflexivity |]. split; [reflexivity |]. split; [reflexivity |].
  by rewrite lookup_insert_eq.
Qed.

Lemma createWallet_then_getWalletDetails_witness :
  exists d,
    getWalletDetails "a" Demo.one_wallet = (Normal d, Demo.one_wallet) /\
    details_id d = "a" /\
    details_currency d = USD /\
    details_balance d = 0%float /\
    details_transactionHistory d = [].
Proof.
  apply (createWallet_then_getWalletDetails Demo.usd Demo.fresh
           (mkWallet "a" USD 0) Demo.one_wallet).
  reflexivity.
Defined.

(** X3: [getWalletDetails] is a pure read: it succeeds exactly when a
    wallet is stored under the identifier and throws the
    [NotFoundException] otherwise, and in either case leaves the world as
    it was, so that dropping every [getWalletDetails] request from a
    sequence of requests leads to the same final world. *)
Theorem reads_do_not_interfere rs w :
  run rs w = run (filter (fun r => is_read r = false) rs) w /\
  (forall k,
      (exists d, getWalletDetails k w = (Normal d, w)) <-> is_Some (wallets w !! k)) /\
  (forall k,
      wallets w !! k = None ->
      getWalletDetails k w =
      (Throw (mkException NotFoundException
                ("Wallet with ID " +:+ dquote +:+ k +:+ dquote +:+ " not found.")), w)).
Proof.
  split; [| split].
  - revert w. induction rs as [| r rs IH]; intros w; [done |].
    destruct r as [dto | k | k dto key | s dto key];
      rewrite ?filter_cons_True, ?filter_cons_False by (simpl; congruence);
      simpl; try apply IH.
    rewrite getWalletDetails_pure. apply IH.
  - intros k. unfold getWalletDetails, bind, wallets_get.
    destruct (wallets w !! k) as [wal|]; split.
    + eauto.
    + intros _. eexists. reflexivity.
    + intros [d [=]].
    + intros [? [=]].
  - intros k Hk. unfold getWalletDetails, bind, wallets_get. by rewrite Hk.
Qed.

Lemma reads_do_not_interfere_witness :
  run [GetWalletDetails "a"; FundWallet "b" (mkFundWalletDto 25) None;
       GetWalletDetails "ghost"] Demo.funded
  = run [FundWallet "b" (mkFundWalletDto 25) None] Demo.funded /\
  getWalletDetails "ghost" Demo.funded =
  (Throw (mkException NotFoundException
            ("Wallet with ID " +:+ dquote +:+ "ghost" +:+ dquote +:+ " not found.")),
   Demo.funded).
Proof.
  destruct (reads_do_not_interfere
              [GetWalletDetails "a"; FundWallet "b" (mkFundWalletDto 25) None;
               GetWalletDetails "ghost"] Demo.funded) as (Hrun & _ & Habsent).
  split; [exact Hrun | apply Habsent; reflexivity].
Defined.

(** ** When the two mutating methods return *)

(** A [fundWallet] call that passed the gate and returned found the wallet
    and its history. *)
Lemma fundWallet_success_inv k dto key w p w' :
  gate_misses key w ->
  fundWallet k dto key w = (Normal p, w') ->
  exists wal h, wallets w !! k = Some wal /\ transactionHistory w !! k = Some h.
Proof.
  intros Hg H.
  destruct (wallets w !! k) as [wal|] eqn:Hw;
    [| rewrite fundWallet_absent in H by done; discriminate].
  destruct (transactionHistory w !! k) as [h|] eqn:Hh; [eauto |].
  destruct (fundWallet_unlogged k dto _ _ _ Hg Hw Hh) as [msg E].
  rewrite H in E. discriminate.
Qed.

(** A [transferFunds] call that passed the gate and returned went through
    every check. *)
Lemma transferFunds_success_inv s dto key w p w' :
  gate_misses key w ->
  transferFunds s dto key w = (Normal p, w') ->
  exists sw rw hs hr,
    s <> receiverWalletId dto /\
    wallets w !! s = Some sw /\ wallets w !! receiverWalletId dto = Some rw /\
    currency sw = currency rw /\
    (balance sw / hundred <? transfer_amount dto)%float = false /\
    transactionHistory w !! s = Some hs /\
    transactionHistory w !! receiverWalletId dto = Some hr.
Proof.
  intros Hg H.
  destruct (decide (s = receiverWalletId dto)) as [Heq|Hne];
    [rewrite transferFunds_self in H by done; discriminate |].
  destruct (wallets w !! s) as [sw|] eqn:Hs;
    [| rewrite transferFunds_sender_absent in H by done; discriminate].
  destruct (wallets w !! receiverWalletId dto) as [rw|] eqn:Hr;
    [| rewrite (transferFunds_receiver_absent _ _ _ _ Hg Hne sw) in H by done;
       discriminate].
  destruct (decide (currency sw = currency rw)) as [Hc|Hc];
    [| rewrite (transferFunds_currency_mismatch _ _ _ _ Hg Hne sw rw) in H by done;
       discriminate].
  destruct (balance sw / hundred <? transfer_amount dto)%float eqn:Hge;
    [rewrite (transferFunds_insufficient _ _ _ _ Hg Hne sw rw) in H by done;
     discriminate |].
  destruct (transactionHistory w !! s) as [hs|] eqn:Hhs; cycle 1.
  { destruct (transferFunds_sender_unlogged _ _ _ _ Hg Hne _ _ Hs Hr Hc Hge Hhs) as [msg E].
    rewrite H in E. discriminate. }
  destruct (transactionHistory w !! receiverWalletId dto) as [hr|] eqn:Hhr; cycle 1.
  { destruct (transferFunds_receiver_unlogged _ _ _ _ Hg Hne _ _ Hs Hr Hc _ Hge Hhs Hhr)
      as [msg E].
    rewrite H in E. discriminate. }
  exists sw, rw, hs, hr. auto 10.
Qed.

(** X4: after a [fundWallet] call that passed the gate and returned,
    [getWalletDetails] on the same wallet reports the identifier, currency
    and balance of the call's payload (the stored prior balance plus
    [amount * 100], divided by 100, each operation in binary64) and the
    prior history followed by the one new [FUND] record. *)
Theorem fundWallet_then_getWalletDetails w k dto key p w' :
  gate_misses key w ->
  fundWallet k dto key w = (Normal p, w') ->
  exists wal h d tx,
    wallets w !! k = Some wal /\
    transactionHistory w !! k = Some h /\
    getWalletDetails k w' = (Normal d, w') /\
    p = FundResult "Transaction successful"
                   (details_id d) (details_currency d) (details_balance d) /\
    details_balance d = ((balance wal + fund_amount dto * hundred) / hundred)%float /\
    details_transactionHistory d = (h ++ [tx])%list /\
    action tx = FUND /\ amount tx = fund_amount dto.
Proof.
  intros Hg H.
  destruct (fundWallet_success_inv _ _ _ _ _ _ Hg H) as (wal & h & Hw & Hh).
  pose proof (fundWallet_ok_wallets _ dto _ _ _ _ Hg Hw Hh) as HW.
  pose proof (fundWallet_ok_history _ dto _ _ _ _ Hg Hw Hh) as HH.
  rewrite H in HW, HH. simpl in HW, HH.
  rewrite (fundWallet_ok _ _ _ _ _ _ Hg Hw Hh) in H. injection H as <- _.
  exists wal, h. eexists _, _. split; [exact Hw |]. split; [exact Hh |].
  unfold getWalletDetails, bind, wallets_get. rewrite HW, lookup_insert_eq. simpl.
  rewrite HH, lookup_insert_eq. simpl.
  split; [reflexivity |]. simpl. split; [reflexivity |].
  split; [reflexivity |]. auto.
Qed.

Lemma fundWallet_then_getWalletDetails_witness :
  exists d,
    fst (getWalletDetails "b"
           (snd (fundWallet "b" (mkFundWalletDto 25) None Demo.funded))) = Normal d /\
    details_balance d = 25%float /\
    length (details_transactionHistory d) = 1%nat.
Proof.
  destruct (fundWallet_then_getWalletDetails Demo.funded "b" (mkFundWalletDto 25) None
              (FundResult "Transaction successful" "b" USD 25)
              (snd (fundWallet "b" (mkFundWalletDto 25) None Demo.funded)))
    as (wal & h & d & tx & Hw & Hh & Hrun & _ & Hbal & Hhist & _).
  - reflexivity.
  - vm_compute. reflexivity.
  - exists d. rewrite Hrun. split; [reflexivity |].
    assert (wal = mkWallet "b" USD 0) as -> by (vm_compute in Hw; congruence).
    assert (h = []) as -> by (vm_compute in Hh; congruence).
    split; [rewrite Hbal; reflexivity | rewrite Hhist; reflexivity].
Defined.

(** X5: after a [transferFunds] call that passed the gate and returned,
    [getWalletDetails] on the sender and on the receiver reports exactly
    the identifiers, currencies and balances of the two wallets in the
    call's payload. *)
Theorem transferFunds_then_getWalletDetails w s dto key p w' :
  gate_misses key w ->
  transferFunds s dto key w = (Normal p, w') ->
  exists ds dr,
    getWalletDetails s w' = (Normal ds, w') /\
    getWalletDetails (receiverWalletId dto) w' = (Normal dr, w') /\
    p = TransferResult "Transaction successful"
          (mkWallet (details_id ds) (details_currency ds) (details_balance ds))
          (mkWallet (details_id dr) (details_currency dr) (details_balance dr)).
Proof.
  intros Hg H.
  destruct (transferFunds_success_inv _ _ _ _ _ _ Hg H)
    as (sw & rw & hs & hr & Hne & Hs & Hr & Hc & Hge & Hhs & Hhr).
  pose proof (transferFunds_ok_wallets _ _ _ _ _ _ _ _ Hg Hne Hs Hr Hc Hge Hhs Hhr) as HW.
  rewrite H in HW. simpl in HW.
  rewrite (transferFunds_ok _ _ _ _ Hg Hne _ _ Hs Hr Hc _ _ Hge Hhs Hhr) in H.
  injection H as <- _.
  unfold getWalletDetails, bind, wallets_get. rewrite HW.
  rewrite lookup_insert_eq, lookup_insert_ne, lookup_insert_eq by done. simpl.
  eexists _, _. repeat split.
Qed.

Lemma transferFunds_then_getWalletDetails_witness :
  exists ds dr,
    getWalletDetails "a" Demo.transferred = (Normal ds, Demo.transferred) /\
    getWalletDetails "b" Demo.transferred = (Normal dr, Demo.transferred) /\
    Demo.transfer_payload =
    TransferResult "Transaction successful"
      (mkWallet (details_id ds) (details_currency ds) (details_balance ds))
      (mkWallet (details_id dr) (details_currency dr) (details_balance dr)).
Proof.
  apply (transferFunds_then_getWalletDetails Demo.funded "a"
           (mkTransferFundsDto "b" 100) (Some "k")).
  - reflexivity.
  - vm_compute. reflexivity.
Defined.

(** X6: on a reachable world, a [fundWallet] call that passes the gate
    returns exactly when a wallet is stored under the identifier; when none
    is, it throws the [NotFoundException] naming the identifier and the
    world stays as it was. *)
Theorem fundWallet_returns_iff_wallet_exists w k dto key :
  reachable w ->
  gate_misses key w ->
  ((exists p w', fundWallet k dto key w = (Normal p, w')) <-> is_Some (wallets w !! k)) /\
  (wallets w !! k = None ->
   fundWallet k dto key w =
   (Throw (mkException NotFoundException
             ("Wallet with ID " +:+ dquote +:+ k +:+ dquote +:+ " not found.")), w)).
Proof.
  intros Hreach Hg. split; [split |].
  - intros (p & w' & H).
    destruct (fundWallet_success_inv _ _ _ _ _ _ Hg H) as (wal & h & Hw & _). eauto.
  - intros [wal Hw].
    destruct (wf_history _ (reachable_well_formed _ Hreach) k) as [h Hh]; [eauto |].
    rewrite (fundWallet_ok _ _ _ _ _ _ Hg Hw Hh). eauto.
  - intros Hw. by apply fundWallet_absent.
Qed.

Lemma fundWallet_returns_iff_wallet_exists_witness :
  fundWallet "ghost" (mkFundWalletDto 5) (Some "fresh") Demo.funded =
  (Throw (mkException NotFoundException
            ("Wallet with ID " +:+ dquote +:+ "ghost" +:+ dquote +:+ " not found.")),
   Demo.funded).
Proof.
  apply (fundWallet_returns_iff_wallet_exists Demo.funded "ghost" (mkFundWalletDto 5)
           (Some "fresh") funded_reachable); reflexivity.
Defined.

(** X7: on a reachable world, a [transferFunds] call that passes the gate
    returns exactly when sender and receiver differ, both wallets exist,
    their currencies are equal and the binary64 test "sender's balance
    divided by 100 is less than [amount]" is false. *)
Theorem transferFunds_returns_iff w s dto key :
  reachable w ->
  gate_misses key w ->
  (exists p w', transferFunds s dto key w = (Normal p, w')) <->
  (s <> receiverWalletId dto /\
   exists sw rw,
     wallets w !! s = Some sw /\
     wallets w !! receiverWalletId dto = Some rw /\
     currency sw = currency rw /\
     (balance sw / hundred <? transfer_amount dto)%float = false).
Proof.
  intros Hreach Hg. split.
  - intros (p & w' & H).
    destruct (transferFunds_success_inv _ _ _ _ _ _ Hg H)
      as (sw & rw & hs & hr & Hne & Hs & Hr & Hc & Hge & _).
    split; [exact Hne |]. exists sw, rw. auto.
  - intros (Hne & sw & rw & Hs & Hr & Hc & Hge).
    pose proof (reachable_well_formed _ Hreach) as Hwf.
    destruct (wf_history _ Hwf s) as [hs Hhs]; [eauto |].
    destruct (wf_history _ Hwf (receiverWalletId dto)) as [hr Hhr]; [eauto |].
    rewrite (transferFunds_ok _ _ _ _ Hg Hne _ _ Hs Hr Hc _ _ Hge Hhs Hhr). eauto.
Qed.

Lemma transferFunds_returns_iff_witness :
  exists p w', transferFunds "a" (mkTransferFundsDto "b" 1000) None Demo.funded
               = (Normal p, w').
Proof.
  apply (transferFunds_returns_iff Demo.funded "a" (mkTransferFundsDto "b" 1000) None
           funded_reachable); [reflexivity |].
  split; [discriminate |].
  exists (mkWallet "a" USD 100000), (mkWallet "b" USD 0).
  repeat split; reflexivity.
Defined.



(** ** What a call leaves alone *)

Lemma gate_misses_absent key k0 w :
  gate_misses key w -> truthy key = Some k0 -> idempotentStore w !! k0 = None.
Proof.
  unfold gate_misses, checkIdempotency. intros H Hk. rewrite Hk in H.
  by destruct (idempotentStore w !! k0).
Qed.

Lemma fundWallet_ok_store k dto key w wal h :
  gate_misses key w ->
  wallets w !! k = Some wal ->
  transactionHistory w !! k = Some h ->
  idempotentStore (snd (fundWallet k dto key w)) = idempotentStore w \/
  exists k0 e,
    idempotentStore w !! k0 = None /\
    idempotentStore (snd (fundWallet k dto key w)) = <[k0 := e]> (idempotentStore w).
Proof.
  intros Hg Hw Hh. rewrite (fundWallet_ok _ _ _ _ _ _ Hg Hw Hh). simpl.
  rewrite storeIdempotencyResult_store.
  destruct (truthy key) as [k0|] eqn:Hk; [right | by left].
  eexists _, _. split; [by eapply gate_misses_absent | reflexivity].
Qed.

Lemma transferFunds_ok_store s dto key w sw rw hs hr :
  gate_misses key w ->
  s <> receiverWalletId dto ->
  wallets w !! s = Some sw ->
  wallets w !! receiverWalletId dto = Some rw ->
  currency sw = currency rw ->
  (balance sw / hundred <? transfer_amount dto)%float = false ->
  transactionHistory w !! s = Some hs ->
  transactionHistory w !! receiverWalletId dto = Some hr ->
  idempotentStore (snd (transferFunds s dto key w)) = idempotentStore w \/
  exists k0 e,
    idempotentStore w !! k0 = None /\
    idempotentStore (snd (transferFunds s dto key w)) = <[k0 := e]> (idempotentStore w).
Proof.
  intros Hg Hne Hs Hr Hc Hge Hhs Hhr.
  rewrite (transferFunds_ok _ _ _ _ Hg Hne _ _ Hs Hr Hc _ _ Hge Hhs Hhr). simpl.
  rewrite storeIdempotencyResult_store.
  destruct (truthy key) as [k0|] eqn:Hk; [right | by left].
  eexists _, _. split; [by eapply gate_misses_absent | reflexivity].
Qed.

(** X10: on a reachable world, [fundWallet] leaves every wallet and every
    history other than the named one exactly as it was, and [transferFunds]
    every wallet and every history other than the sender's and the
    receiver's; this holds on every path, returning or throwing. *)
Theorem calls_touch_only_named_wallets w :
  reachable w ->
  (forall k dto key k',
      k' <> k ->
      wallets (snd (fundWallet k dto key w)) !! k' = wallets w !! k' /\
      transactionHistory (snd (fundWallet k dto key w)) !! k' = transactionHistory w !! k') /\
  (forall s dto key k',
      k' <> s -> k' <> receiverWalletId dto ->
      wallets (snd (transferFunds s dto key w)) !! k' = wallets w !! k' /\
      transactionHistory (snd (transferFunds s dto key w)) !! k'
      = transactionHistory w !! k').
Proof.
  intros Hreach. pose proof (reachable_well_formed _ Hreach) as Hwf. split.
  - intros k dto key k' Hk.
    destruct (fundWallet_outcomes k dto key w (wf_history _ Hwf))
      as [-> | (wal & h & Hg & Hw & Hh)]; [done |].
    rewrite (fundWallet_ok_wallets _ dto _ _ _ _ Hg Hw Hh).
    rewrite (fundWallet_ok_history _ dto _ _ _ _ Hg Hw Hh).
    by rewrite !lookup_insert_ne.
  - intros s dto key k' Hks Hkr.
    destruct (transferFunds_outcomes s dto key w (wf_history _ Hwf))
      as [-> | (sw & rw & hs & hr & Hg & Hne & Hs & Hr & Hc & Hge & Hhs & Hhr)]; [done |].
    destruct (transferFunds_ok_history _ _ _ _ _ _ _ _ Hg Hne Hs Hr Hc Hge Hhs Hhr)
      as (out & inc & -> & _).
    rewrite (transferFunds_ok_wallets _ _ _ _ _ _ _ _ Hg Hne Hs Hr Hc Hge Hhs Hhr).
    by rewrite !lookup_insert_ne.
Qed.

Lemma calls_touch_only_named_wallets_witness :
  wallets (snd (fundWallet "b" (mkFundWalletDto 25) None Demo.funded)) !! "a"
  = wallets Demo.funded !! "a" /\
  transactionHistory (snd (fundWallet "b" (mkFundWalletDto 25) None Demo.funded)) !! "a"
  = transactionHistory Demo.funded !! "a".
Proof.
  apply (proj1 (calls_touch_only_named_wallets Demo.funded funded_reachable)).
  discriminate.
Defined.

(** How one request changes the identifier and currency stored under a key:
    not at all, unless the request creates the wallet under that key. *)
Lemma handle_keeps_identity r w k wal :
  well_formed w ->
  on_existing r = true ->
  wallets w !! k = Some wal ->
  exists wal',
    wallets (handle r w) !! k = Some wal' /\ id wal' = id wal /\ currency wal' = currency wal.
Proof.
  intros Hwf Hr Hk. destruct r as [dto | k0 | k0 dto key | s dto key]; simpl; [done | ..].
  - rewrite getWalletDetails_pure. eauto.
  - destruct (fundWallet_outcomes k0 dto key w (wf_history _ Hwf))
      as [-> | (wal0 & h & Hg & Hw & Hh)]; [eauto |].
    rewrite (fundWallet_ok_wallets _ dto _ _ _ _ Hg Hw Hh).
    destruct (decide (k0 = k)) as [->|Hne].
    + rewrite lookup_insert_eq. simplify_eq. eauto.
    + rewrite lookup_insert_ne by done. eauto.
  - destruct (transferFunds_outcomes s dto key w (wf_history _ Hwf))
      as [-> | (sw & rw & hs & hr & Hg & Hne & Hs & Hrw & Hc & Hge & Hhs & Hhr)]; [eauto |].
    rewrite (transferFunds_ok_wallets _ _ _ _ _ _ _ _ Hg Hne Hs Hrw Hc Hge Hhs Hhr).
    destruct (decide (receiverWalletId dto = k)) as [<-|Hk1].
    + rewrite lookup_insert_eq. simplify_eq. eauto.
    + rewrite lookup_insert_ne by done. destruct (decide (s = k)) as [->|Hk2].
      * rewrite lookup_insert_eq. simplify_eq. eauto.
      * rewrite lookup_insert_ne by done. eauto.
Qed.

Lemma handle_keeps_wallet r w k :
  well_formed w -> is_Some (wallets w !! k) -> is_Some (wallets (handle r w) !! k).
Proof.
  intros Hwf [wal Hk]. destruct (on_existing r) eqn:Hr.
  - destruct (handle_keeps_identity r w k wal Hwf Hr Hk) as (wal' & -> & _). eauto.
  - destruct r; try discriminate. cbn [handle]. rewrite createWallet_run. simpl.
    apply lookup_insert_is_Some'. right. eauto.
Qed.

Lemma handle_keeps_cached r w k e :
  well_formed w ->
  idempotentStore w !! k = Some e -> idempotentStore (handle r w) !! k = Some e.
Proof.
  intros Hwf Hk. destruct r as [dto | k0 | k0 dto key | s dto key]; cbn [handle].
  - by rewrite createWallet_run.
  - by rewrite getWalletDetails_pure.
  - destruct (fundWallet_outcomes k0 dto key w (wf_history _ Hwf))
      as [-> | (wal0 & h & Hg & Hw & Hh)]; [done |].
    destruct (fundWallet_ok_store k0 dto key w _ _ Hg Hw Hh) as [-> | (k1 & e1 & Hk1 & ->)];
      [done |].
    rewrite lookup_insert_ne; [done | congruence].
  - destruct (transferFunds_outcomes s dto key w (wf_history _ Hwf))
      as [-> | (sw & rw & hs & hr & Hg & Hne & Hs & Hrw & Hc & Hge & Hhs & Hhr)]; [done |].
    destruct (transferFunds_ok_store s dto key w _ _ _ _ Hg Hne Hs Hrw Hc Hge Hhs Hhr)
      as [-> | (k1 & e1 & Hk1 & ->)]; [done |].
    rewrite lookup_insert_ne; [done | congruence].
Qed.

(** X11: along any sequence of validated requests from a reachable world a
    wallet is never removed, and as long as no [createWallet] is among the
    requests its stored identifier and currency never change. *)
Theorem wallets_are_permanent rs w k wal :
  reachable w ->
  forallb validated rs = true ->
  wallets w !! k = Some wal ->
  is_Some (wallets (run rs w) !! k) /\
  (forallb on_existing rs = true ->
   exists wal',
     wallets (run rs w) !! k = Some wal' /\ id wal' = id wal /\ currency wal' = currency wal).
Proof.
  revert w wal. induction rs as [| r rs IH]; simpl; intros w wal Hreach Hv Hk; [eauto |].
  apply andb_prop in Hv as [Hr Hrs].
  pose proof (reachable_well_formed _ Hreach) as Hwf.
  destruct (handle_keeps_wallet r w k Hwf) as [wal1 Hk1]; [eauto |].
  assert (reachable (handle r w)) as Hreach1 by by constructor.
  destruct (IH _ _ Hreach1 Hrs Hk1) as [Hsome Hsame]. split; [exact Hsome |].
  intros Hex. apply andb_prop in Hex as [Hex1 Hex2].
  destruct (handle_keeps_identity r w k wal Hwf Hex1 Hk) as (wal2 & Hk2 & Hid & Hcur).
  rewrite Hk1 in Hk2. injection Hk2 as ->.
  destruct (Hsame Hex2) as (wal' & Hk' & Hid' & Hcur'). exists wal'. split; [done |].
  split; congruence.
Qed.

Lemma wallets_are_permanent_witness :
  exists wal',
    wallets (run [TransferFunds "a" (mkTransferFundsDto "b" 100) (Some "k");
                  FundWallet "a" (mkFundWalletDto 3) None] Demo.funded) !! "a"
    = Some wal' /\
    id wal' = "a" /\ currency wal' = USD.
Proof.
  apply (wallets_are_permanent
           [TransferFunds "a" (mkTransferFundsDto "b" 100) (Some "k");
            FundWallet "a" (mkFundWalletDto 3) None]
           Demo.funded "a" (mkWallet "a" USD 100000) funded_reachable);
    reflexivity.
Defined.

(** X12: a cached response is never overwritten or dropped: along any
    sequence of validated requests from a reachable world, a key found in
    the store stays there with the same response. *)
Theorem cached_responses_are_permanent rs w k e :
  reachable w ->
  forallb validated rs = true ->
  idempotentStore w !! k = Some e ->
  idempotentStore (run rs w) !! k = Some e.
Proof.
  revert w. induction rs as [| r rs IH]; simpl; intros w Hreach Hv Hk; [done |].
  apply andb_prop in Hv as [Hr Hrs].
  apply IH; [by constructor | done |].
  by apply handle_keeps_cached; [apply reachable_well_formed |].
Qed.

Lemma cached_responses_are_permanent_witness :
  idempotentStore
    (run [FundWallet "a" (mkFundWalletDto 3) (Some "other");
          TransferFunds "b" (mkTransferFundsDto "a" 50) (Some "k")] Demo.transferred)
    !! "k"
  = Some (mkIdempotentResponse Demo.transfer_payload).
Proof.
  apply (cached_responses_are_permanent
           [FundWallet "a" (mkFundWalletDto 3) (Some "other");
            TransferFunds "b" (mkTransferFundsDto "a" 50) (Some "k")]
           Demo.transferred "k" _ transferred_reachable); [reflexivity |].
  vm_compute. reflexivity.
Defined.

(** ** Calls without a usable key *)

Lemma truthy_None key : key = None \/ key = Some EmptyString -> truthy key = None.
Proof. by intros [-> | ->]. Qed.

Lemma gate_misses_keyless key w : truthy key = None -> gate_misses key w.
Proof. unfold gate_misses, checkIdempotency. by intros ->. Qed.

Lemma fundWallet_keyless k dto key w wal h :
  truthy key = None ->
  wallets w !! k = Some wal ->
  transactionHistory w !! k = Some h ->
  exists p w1 tx,
    fundWallet k dto key w = (Normal p, w1) /\
    wallets w1 !! k =
      Some (mkWallet (id wal) (currency wal) (balance wal + fund_amount dto * hundred)) /\
    transactionHistory w1 !! k = Some (h ++ [tx])%list /\
    idempotentStore w1 = idempotentStore w.
Proof.
  intros Hkey Hw Hh.
  rewrite (fundWallet_ok k dto key w wal h (gate_misses_keyless _ _ Hkey) Hw Hh).
  eexists _, _, _. split; [reflexivity |].
  rewrite storeIdempotencyResult_wallets, storeIdempotencyResult_history,
    storeIdempotencyResult_store, Hkey. simpl.
  by rewrite !lookup_insert_eq.
Qed.

(** X13: without a key, or with the empty string as key, nothing is cached
    and nothing is deduplicated: two successive identical [fundWallet]
    calls on a wallet that has a history both return, the wallet ends with
    its balance credited twice, its history with two more records, and the
    store of cached responses is unchanged. *)
Theorem keyless_fundWallet_runs_every_time w k dto key wal h :
  key = None \/ key = Some EmptyString ->
  wallets w !! k = Some wal ->
  transactionHistory w !! k = Some h ->
  exists p1 w1 p2 w2 wal2 tx1 tx2,
    fundWallet k dto key w = (Normal p1, w1) /\
    fundWallet k dto key w1 = (Normal p2, w2) /\
    wallets w2 !! k = Some wal2 /\
    balance wal2
    = (balance wal + fund_amount dto * hundred + fund_amount dto * hundred)%float /\
    transactionHistory w2 !! k = Some (h ++ [tx1; tx2])%list /\
    idempotentStore w2 = idempotentStore w.
Proof.
  intros Hkey Hw Hh. apply truthy_None in Hkey.
  destruct (fundWallet_keyless k dto key w wal h Hkey Hw Hh)
    as (p1 & w1 & tx1 & H1 & Hw1 & Hh1 & Hs1).
  destruct (fundWallet_keyless k dto key w1 _ _ Hkey Hw1 Hh1)
    as (p2 & w2 & tx2 & H2 & Hw2 & Hh2 & Hs2).
  exists p1, w1, p2, w2. eexists _, tx1, tx2.
  split; [exact H1 |]. split; [exact H2 |]. split; [exact Hw2 |]. simpl.
  split; [reflexivity |]. split; [by rewrite Hh2, <- app_assoc | congruence].
Qed.

Lemma keyless_fundWallet_runs_every_time_witness :
  exists p1 w1 p2 w2 wal2 tx1 tx2,
    fundWallet "b" (mkFundWalletDto 25) (Some EmptyString) Demo.funded = (Normal p1, w1) /\
    fundWallet "b" (mkFundWalletDto 25) (Some EmptyString) w1 = (Normal p2, w2) /\
    wallets w2 !! "b" = Some wal2 /\
    balance wal2 = (0 + 25 * hundred + 25 * hundred)%float /\
    transactionHistory w2 !! "b" = Some ([] ++ [tx1; tx2])%list /\
    idempotentStore w2 = idempotentStore Demo.funded.
Proof.
  apply (keyless_fundWallet_runs_every_time Demo.funded "b" (mkFundWalletDto 25)
           (Some EmptyString) (mkWallet "b" USD 0) []);
    [by right | reflexivity | reflexivity].
Defined.



(** ** The stored histories on reachable worlds *)

(** X15: on a reachable world the wallets and the histories have the same
    keys, and every wallet carries the key it is stored under as its
    identifier. *)
Theorem wallets_and_histories_aligned w k :
  reachable w ->
  (is_Some (wallets w !! k) <-> is_Some (transactionHistory w !! k)) /\
  (forall wal, wallets w !! k = Some wal -> id wal = k).
Proof.
  intros Hreach. split; [split |].
  - apply (wf_history _ (reachable_well_formed _ Hreach)).
  - apply (ls_keys _ (reachable_ledger_sound _ Hreach)).
  - apply (ls_id _ (reachable_ledger_sound _ Hreach)).
Qed.

Lemma wallets_and_histories_aligned_witness :
  (is_Some (wallets Demo.transferred !! "b") <->
   is_Some (transactionHistory Demo.transferred !! "b")) /\
  (forall wal, wallets Demo.transferred !! "b" = Some wal -> id wal = "b").
Proof.
  apply (wallets_and_histories_aligned Demo.transferred "b" transferred_reachable).
Defined.

(** X16: on a reachable world every record of a wallet's history names
    that wallet as its owner; a [FUND] record has neither counterparty nor
    transfer group, and a [TRANSFER_OUT] or [TRANSFER_IN] record has a
    transfer group and a counterparty other than the owner. *)
Theorem history_records_are_well_linked w k h :
  reachable w ->
  transactionHistory w !! k = Some h ->
  Forall (well_linked k) h.
Proof. intros Hreach. apply (ls_records _ (reachable_ledger_sound _ Hreach)). Qed.

Lemma history_records_are_well_linked_witness :
  exists h,
    transactionHistory Demo.transferred !! "a" = Some h /\
    length h = 2%nat /\
    Forall (well_linked "a") h.
Proof.
  eexists. split; [vm_compute; reflexivity |]. split; [reflexivity |].
  apply (history_records_are_well_linked Demo.transferred "a" _ transferred_reachable).
  vm_compute. reflexivity.
Defined.

Lemma handle_extends_history r w k h :
  well_formed w ->
  on_existing r = true ->
  transactionHistory w !! k = Some h ->
  exists suffix,
    transactionHistory (handle r w) !! k = Some (h ++ suffix)%list /\
    (length suffix <= 1)%nat.
Proof.
  intros Hwf Hr Hk.
  assert (exists suffix, Some h = Some (h ++ suffix)%list /\ (length suffix <= 1)%nat) as Hsame
    by (exists []; rewrite app_nil_r; simpl; auto).
  destruct r as [dto | k0 | k0 dto key | s dto key]; cbn [handle]; [done | ..].
  - by rewrite getWalletDetails_pure, Hk.
  - destruct (fundWallet_outcomes k0 dto key w (wf_history _ Hwf))
      as [-> | (wal0 & h0 & Hg & Hw & Hh)]; [by rewrite Hk |].
    rewrite (fundWallet_ok_history _ dto _ _ _ _ Hg Hw Hh).
    destruct (decide (k0 = k)) as [->|Hne].
    + rewrite lookup_insert_eq. simplify_eq. eauto.
    + by rewrite lookup_insert_ne, Hk.
  - destruct (transferFunds_outcomes s dto key w (wf_history _ Hwf))
      as [-> | (sw & rw & hs & hr & Hg & Hne & Hs & Hrw & Hc & Hge & Hhs & Hhr)];
      [by rewrite Hk |].
    destruct (transferFunds_ok_history _ _ _ _ _ _ _ _ Hg Hne Hs Hrw Hc Hge Hhs Hhr)
      as (out & inc & -> & _).
    destruct (decide (receiverWalletId dto = k)) as [<-|Hk1].
    + rewrite lookup_insert_eq. simplify_eq. eauto.
    + rewrite lookup_insert_ne by done. destruct (decide (s = k)) as [->|Hk2].
      * rewrite lookup_insert_eq. simplify_eq. eauto.
      * by rewrite lookup_insert_ne, Hk.
Qed.

(** X18: histories are append-only: along any sequence of validated
    requests other than [createWallet] from a reachable world, the history
    of a wallet is its earlier history followed by at most one new record
    per request. *)
Theorem histories_are_append_only rs w k h :
  reachable w ->
  forallb validated rs = true ->
  forallb on_existing rs = true ->
  transactionHistory w !! k = Some h ->
  exists suffix,
    transactionHistory (run rs w) !! k = Some (h ++ suffix)%list /\
    (length suffix <= length rs)%nat.
Proof.
  revert w h. induction rs as [| r rs IH]; simpl; intros w h Hreach Hv Hex Hk.
  - exists []. by rewrite app_nil_r.
  - apply andb_prop in Hv as [Hv1 Hv2]. apply andb_prop in Hex as [Hex1 Hex2].
    destruct (handle_extends_history r w k h (reachable_well_formed _ Hreach) Hex1 Hk)
      as (s1 & Hk1 & Hl1).
    destruct (IH (handle r w) _ (reachable_handle _ _ Hreach Hv1) Hv2 Hex2 Hk1)
      as (s2 & Hk2 & Hl2).
    exists (s1 ++ s2)%list. rewrite Hk2, app_assoc, length_app. split; [done | lia].
Qed.

Lemma histories_are_append_only_witness :
  exists h suffix,
    transactionHistory Demo.funded !! "a" = Some h /\
    transactionHistory
      (run [TransferFunds "a" (mkTransferFundsDto "b" 100) (Some "k");
            FundWallet "a" (mkFundWalletDto 3) None] Demo.funded) !! "a"
    = Some (h ++ suffix)%list /\
    (length suffix <= 2)%nat.
Proof.
  eexists. 
  destruct (histories_are_append_only
              [TransferFunds "a" (mkTransferFundsDto "b" 100) (Some "k");
               FundWallet "a" (mkFundWalletDto 3) None]
              Demo.funded "a" _ funded_reachable eq_refl eq_refl eq_refl)
    as (suffix & Hrun & Hlen).
  exists suffix. split; [reflexivity |]. split; [exact Hrun | exact Hlen].
Defined.

(** X20: on a reachable world every record of every history carries a
    positive amount, the one the validated request asked for. *)
Theorem recorded_amounts_are_positive w k h :
  reachable w ->
  transactionHistory w !! k = Some h ->
  Forall (fun tx => (0 <? amount tx)%float = true) h.
Proof.
  intros Hreach. revert k h.
  induction Hreach as [uuids dates | r w Hreach IH Hv]; intros k h'.
  - simpl. by rewrite lookup_empty.
  - pose proof (reachable_well_formed _ Hreach) as Hwf.
    destruct r as [dto | k0 | k0 dto key | s dto key]; cbn [handle]; simpl in Hv.
    + rewrite createWallet_run. simpl. destruct (decide (uuid_oracle w (uuid_cursor w) = k))
        as [<-|Hne].
      * rewrite lookup_insert_eq. intros [= <-]. constructor.
      * rewrite lookup_insert_ne by done. apply IH.
    + rewrite getWalletDetails_pure. apply IH.
    + apply andb_prop in Hv as [Hv _].
      destruct (fundWallet_outcomes k0 dto key w (wf_history _ Hwf))
        as [-> | (wal0 & h0 & Hg & Hw & Hh)]; [apply IH |].
      rewrite (fundWallet_ok_history _ dto _ _ _ _ Hg Hw Hh).
      destruct (decide (k0 = k)) as [->|Hne].
      * rewrite lookup_insert_eq. intros [= <-]. apply Forall_app. split; [by eapply IH |].
        by repeat constructor.
      * rewrite lookup_insert_ne by done. apply IH.
    + apply andb_prop in Hv as [Hv _].
      destruct (transferFunds_outcomes s dto key w (wf_history _ Hwf))
        as [-> | (sw & rw & hs & hr & Hg & Hne & Hs & Hrw & Hc & Hge & Hhs & Hhr)];
        [apply IH |].
      destruct (transferFunds_ok_history _ _ _ _ _ _ _ _ Hg Hne Hs Hrw Hc Hge Hhs Hhr)
        as (out & inc & -> & -> & ->).
      destruct (decide (receiverWalletId dto = k)) as [<-|Hk1].
      * rewrite lookup_insert_eq. intros [= <-]. apply Forall_app. split; [by eapply IH |].
        by repeat constructor.
      * rewrite lookup_insert_ne by done. destruct (decide (s = k)) as [->|Hk2].
        -- rewrite lookup_insert_eq. intros [= <-]. apply Forall_app.
           split; [by eapply IH |]. by repeat constructor.
        -- rewrite lookup_insert_ne by done. apply IH.
Qed.

Lemma recorded_amounts_are_positive_witness :
  exists h,
    transactionHistory Demo.transferred !! "b" = Some h /\
    length h = 1%nat /\
    Forall (fun tx => (0 <? amount tx)%float = true) h.
Proof.
  eexists. split; [vm_compute; reflexivity |]. split; [reflexivity |].
  apply (recorded_amounts_are_positive Demo.transferred "b" _ transferred_reachable).
  vm_compute. reflexivity.
Defined.

(** ** Identifiers drawn from [uuid()] *)

Lemma storeIdempotencyResult_uuid key r w :
  uuid_oracle (snd (storeIdempotencyResult key r w)) = uuid_oracle w /\
  uuid_cursor (snd (storeIdempotencyResult key r w)) = uuid_cursor w.
Proof. eff_cases; done. Qed.

(** One request never changes the source of identifiers, never moves its
    cursor back, and adds no wallet other than one stored under the
    identifier at the cursor, which it then moves past. *)
Lemma handle_draws r w :
  well_formed w ->
  uuid_oracle (handle r w) = uuid_oracle w /\
  (uuid_cursor w <= uuid_cursor (handle r w))%nat /\
  (forall k,
      is_Some (wallets (handle r w) !! k) ->
      is_Some (wallets w !! k) \/
      (k = uuid_oracle w (uuid_cursor w) /\ (uuid_cursor w < uuid_cursor (handle r w))%nat)).
Proof.
  intros Hwf. destruct r as [dto | k0 | k0 dto key | s dto key]; cbn [handle].
  - rewrite createWallet_run. simpl. split; [done |]. split; [lia |].
    intros k. destruct (decide (uuid_oracle w (uuid_cursor w) = k)) as [<-|Hne].
    + right. split; [done | lia].
    + rewrite lookup_insert_ne by done. auto.
  - rewrite getWalletDetails_pure. auto.
  - destruct (fundWallet_outcomes k0 dto key w (wf_history _ Hwf))
      as [-> | (wal0 & h0 & Hg & Hw & Hh)]; [auto |].
    rewrite (fundWallet_ok _ _ _ _ _ _ Hg Hw Hh). cbn [snd].
    match goal with |- context [storeIdempotencyResult ?a ?b ?c] =>
      destruct (storeIdempotencyResult_uuid a b c) as [-> ->] end.
    split; [done |]. split; [simpl; lia |]. intros k.
    rewrite storeIdempotencyResult_wallets. simpl.
    destruct (decide (k0 = k)) as [<-|Hne]; [eauto |].
    rewrite lookup_insert_ne by done. auto.
  - destruct (transferFunds_outcomes s dto key w (wf_history _ Hwf))
      as [-> | (sw & rw & hs & hr & Hg & Hne & Hs & Hrw & Hc & Hge & Hhs & Hhr)]; [auto |].
    rewrite (transferFunds_ok _ _ _ _ Hg Hne _ _ Hs Hrw Hc _ _ Hge Hhs Hhr). cbn [snd].
    match goal with |- context [storeIdempotencyResult ?a ?b ?c] =>
      destruct (storeIdempotencyResult_uuid a b c) as [-> ->] end.
    split; [done |]. split; [simpl; lia |]. intros k.
    rewrite storeIdempotencyResult_wallets. simpl.
    destruct (decide (receiverWalletId dto = k)) as [<-|Hk1]; [eauto |].
    rewrite lookup_insert_ne by done.
    destruct (decide (s = k)) as [<-|Hk2]; [eauto |].
    rewrite lookup_insert_ne by done. auto.
Qed.

(** Every stored wallet sits under an identifier drawn earlier. *)
Lemma reachable_wallets_drawn w k :
  reachable w ->
  is_Some (wallets w !! k) ->
  exists n, (n < uuid_cursor w)%nat /\ k = uuid_oracle w n.
Proof.
  intros Hreach. revert k. induction Hreach as [uuids dates | r w Hreach IH Hv]; intros k.
  - simpl. rewrite lookup_empty. by intros [? [=]].
  - destruct (handle_draws r w (reachable_well_formed _ Hreach)) as (Ho & Hc & Hnew).
    intros Hk. rewrite Ho. destruct (Hnew k Hk) as [Hold | [-> Hlt]].
    + destruct (IH k Hold) as (n & Hn & ->). exists n. split; [lia | done].
    + eauto.
Qed.

(** X21: when the identifier [uuid()] returns next differs from all those
    it returned before, [createWallet] on a reachable world does not land
    on an identifier in use: every wallet and every history stored before
    the call is stored unchanged after it. *)
Theorem createWallet_never_replaces_a_wallet w dto k :
  reachable w ->
  (forall n, (n < uuid_cursor w)%nat -> uuid_oracle w n <> uuid_oracle w (uuid_cursor w)) ->
  wallets w !! uuid_oracle w (uuid_cursor w) = None /\
  (is_Some (wallets w !! k) ->
   wallets (snd (createWallet dto w)) !! k = wallets w !! k /\
   transactionHistory (snd (createWallet dto w)) !! k = transactionHistory w !! k).
Proof.
  intros Hreach Hnew.
  assert (wallets w !! uuid_oracle w (uuid_cursor w) = None) as Hfresh.
  { destruct (wallets w !! uuid_oracle w (uuid_cursor w)) eqn:E; [| done].
    destruct (reachable_wallets_drawn w (uuid_oracle w (uuid_cursor w)) Hreach)
      as (n & Hn & Heq); [eauto |].
    by destruct (Hnew n Hn). }
  split; [exact Hfresh |]. intros [wal Hk].
  rewrite createWallet_run. simpl.
  rewrite !lookup_insert_ne; [done | congruence..].
Qed.

Lemma createWallet_never_replaces_a_wallet_witness :
  wallets Demo.funded !! "d" = None /\
  wallets (snd (createWallet Demo.ngn Demo.funded)) !! "a" = wallets Demo.funded !! "a" /\
  transactionHistory (snd (createWallet Demo.ngn Demo.funded)) !! "a"
  = transactionHistory Demo.funded !! "a".
Proof.
  destruct (createWallet_never_replaces_a_wallet Demo.funded Demo.ngn "a" funded_reachable)
    as [Hfresh Hkeep].
  - intros n Hn. change (uuid_cursor Demo.funded) with 3%nat in Hn.
    destruct n as [| [| [| n]]]; [discriminate.. | lia].
  - split; [exact Hfresh |]. apply Hkeep. by eexists.
Defined.
